(** * Polygon-js: transform and collision queries of [src/Polygon.js]

    A shallow embedding of the [Polygon] class.  JavaScript Numbers are IEEE 754
    binary64 values, which is what Rocq's primitive [float] is: [+ - * /] and
    [sqrt] are correctly rounded, [<] and [===] are the IEEE comparisons
    (every comparison with NaN is false, [+0 === -0]).  The entity's mutable
    fields are threaded explicitly, typed-array buffers are lists updated by
    index, and a property read that can yield [undefined] is an [option]. *)

From Stdlib Require Import Floats ZArith Lia Bool List.
From stdpp Require Import base option list.

#[local] Open Scope float_scope.

(** ** JavaScript values used by the class *)

(** [a > b] evaluates [b < a]. *)
Notation "x >? y" := (PrimFloat.ltb y x) (at level 70, no associativity) : float_scope.

(** [a === b] on two Numbers. *)
Notation "x === y" := (PrimFloat.eqb x y) (at level 70, no associativity) : float_scope.

(** [b1 !== b2] on two Booleans. *)
Notation "b1 !== b2" := (xorb b1 b2) (at level 70, no associativity) : bool_scope.

Definition Infinity : float := infinity.

(** The Number of a loop counter. *)
Definition Number_of_nat (i : nat) : float := of_uint63 (Uint63.of_Z (Z.of_nat i)).

(** [ToNumber]: [undefined] becomes NaN wherever it meets arithmetic or a
    comparison. *)
Definition ToNumber (v : option float) : float := default nan v.

(** [v === field] where the field may still be [undefined]: a Number is never
    strictly equal to [undefined]. *)
Definition strict_eq_field (v : float) (field : option float) : bool :=
  match field with
  | Some w => v === w
  | None => false
  end.

(** The host's [Math] object.  [Math.abs] and [Math.sqrt] are the IEEE
    operations; [Math.cos] and [Math.sin] are implementation-approximated, and
    ECMAScript fixes only their values at special arguments, of which the
    results below use [cos(+0) = 1] and [sin(+0) = +0]. *)
Class MathHost := {
  Math_cos : float -> float;
  Math_sin : float -> float;
  Math_cos_zero : Math_cos 0 = 1;
  Math_sin_zero : Math_sin 0 = 0
}.

Definition Math_abs : float -> float := PrimFloat.abs.
Definition Math_sqrt : float -> float := PrimFloat.sqrt.
Definition Math_PI : float := 0x1.921fb54442d18p+1.

(** A host for running examples: truncated Maclaurin series in Horner form.
    Both series are exact at zero, and the examples below use no other
    rotation, for which every host gives the same vertices. *)
Definition series_cos (r : float) : float :=
  let r2 := r * r in
  1 - r2 / 2 * (1 - r2 / 12 * (1 - r2 / 30 * (1 - r2 / 56 * (1 - r2 / 90 *
  (1 - r2 / 132 * (1 - r2 / 182 * (1 - r2 / 240))))))).

Definition series_sin (r : float) : float :=
  let r2 := r * r in
  r * (1 - r2 / 6 * (1 - r2 / 20 * (1 - r2 / 42 * (1 - r2 / 72 * (1 - r2 / 110 *
  (1 - r2 / 156 * (1 - r2 / 210 * (1 - r2 / 272)))))))).

#[global] Instance series_host : MathHost :=
  {| Math_cos := series_cos; Math_sin := series_sin;
     Math_cos_zero := eq_refl; Math_sin_zero := eq_refl |}.

(** Abrupt completion: the only exception the class can raise is the
    [TypeError] of reading a property of [undefined].  A throw carries no
    state: nothing is said of the entity after it. *)
Inductive completion (A : Type) : Type :=
| Normal (a : A)
| Throw_TypeError.
Arguments Normal {A} a.
Arguments Throw_TypeError {A}.

Definition bind {A B : Type} (c : completion A) (k : A -> completion B) : completion B :=
  match c with
  | Normal a => k a
  | Throw_TypeError => Throw_TypeError
  end.

(** [for (let i = start; i < start + n; i++) body], where the body either
    falls through to the next iteration ([None]) or executes [return r]. *)
Fixpoint for_return {R : Type} (n start : nat) (body : nat -> option R) : option R :=
  match n with
  | O => None
  | S n' =>
    match body start with
    | Some r => Some r
    | None => for_return n' (S start) body
    end
  end.

(** The same loop over a mutable state, whose body may throw. *)
Fixpoint for_state {St : Type} (n start : nat) (body : nat -> St -> completion St) (s : St) : completion St :=
  match n with
  | O => Normal s
  | S n' => bind (body start s) (for_state n' (S start) body)
  end.

(** ** Points and polygon-like values *)

Module Point.
Record t : Type := mk { x : float; y : float }.
End Point.

#[global] Instance point_inhabited : Inhabited Point.t := populate (Point.mk nan nan).

(** An object [{x, y}] whose coordinates were read out of an array: either
    may be [undefined].  The class reads the coordinates of a point in
    arithmetic and comparisons only, where [undefined] is NaN. *)
Module ObjectPoint.
Record t : Type := mk { x : option float; y : option float }.
End ObjectPoint.

Definition to_point (o : ObjectPoint.t) : Point.t :=
  Point.mk (ToNumber (ObjectPoint.x o)) (ToNumber (ObjectPoint.y o)).

(** The collision functions read [polygon.points] and nothing else: a
    [Polygon] (whose [points] is a getter) or a plain object with a [points]
    array. *)
Class PolygonLike (T : Type) := points : T -> list Point.t.

Record PlainPolygon : Type := { plain_points : list Point.t }.

#[global] Instance plain_polygon_like : PolygonLike PlainPolygon := plain_points.

Record Box : Type := { width : float; height : float }.

Inductive Returned : Type :=
| ReturnsUndefined
| ReturnsThis.

(** ** The class, second copy in the file (lines 166-395) *)

Module Polygon.

Record t : Type := mk {
  _points : list Point.t;
  numPoints : nat;
  xPoints : list float;
  yPoints : list float;
  x : option float;
  y : option float;
  radius : option float;
  rotation : option float
}.

(** [arrayToObject(list)], on an array of arrays of Numbers: [list[i][0]] and
    [list[i][1]] are [undefined] past the end of [list[i]]. *)
Definition arrayToObject (list : list (list float)) : Datatypes.list ObjectPoint.t :=
  map (fun i => ObjectPoint.mk ((list !!! i) !! 0%nat) ((list !!! i) !! 1%nat))
      (seq 0 (length list)).

(** Body of the loop of [update]: [this._points[i]] is [undefined] out of
    range, and reading its [x] throws; a write past the end of a
    [Float64Array] is ignored. *)
Definition update_body (x y radius cos sin : float) (i : nat) (this : t) : completion t :=
  match _points this !! i with
  | None => Throw_TypeError
  | Some point =>
    Normal {| _points := _points this;
              numPoints := numPoints this;
              xPoints := <[i := x + (Point.x point * cos - Point.y point * sin) * radius]> (xPoints this);
              yPoints := <[i := y + (Point.y point * cos + Point.x point * sin) * radius]> (yPoints this);
              Polygon.x := Polygon.x this;
              Polygon.y := Polygon.y this;
              Polygon.radius := Polygon.radius this;
              Polygon.rotation := Polygon.rotation this |}
  end.

Definition update `{MathHost} (this : t) (x y radius rotation : float) : completion (t * Returned) :=
  if strict_eq_field x (Polygon.x this) &&
     strict_eq_field y (Polygon.y this) &&
     strict_eq_field radius (Polygon.radius this) &&
     strict_eq_field rotation (Polygon.rotation this)
  then Normal (this, ReturnsUndefined)
  else
    let this := {| _points := _points this;
                   numPoints := numPoints this;
                   xPoints := xPoints this;
                   yPoints := yPoints this;
                   Polygon.x := Some x;
                   Polygon.y := Some y;
                   Polygon.radius := Some radius;
                   Polygon.rotation := Some rotation |} in
    let cos := Math_cos rotation in
    let sin := Math_sin rotation in
    bind (for_state (numPoints this) 0 (update_body x y radius cos sin) this)
         (fun this => Normal (this, ReturnsThis)).

(** [new Polygon(points, x, y, radius, rotation = 0)]. *)
Definition new `{MathHost} (points : list Point.t) (x y radius : float) (rotation : option float) : completion t :=
  let this := {| _points := points;
                 numPoints := length points;
                 xPoints := replicate (length points) 0;
                 yPoints := replicate (length points) 0;
                 Polygon.x := None;
                 Polygon.y := None;
                 Polygon.radius := None;
                 Polygon.rotation := None |} in
  bind (update this x y radius (default 0 rotation)) (fun r => Normal (fst r)).

(** [get points()]: a fresh array of the current world vertices.  A buffer
    read out of range would give [undefined], which every reader of a
    coordinate turns into NaN. *)
Definition get_points (this : t) : list Point.t :=
  map (fun i => Point.mk (ToNumber (xPoints this !! i)) (ToNumber (yPoints this !! i)))
      (seq 0 (numPoints this)).

#[global] Instance polygon_like : PolygonLike t := get_points.

Definition borderBox (this : t) : Box :=
  let '(width, height) :=
    fold_left
      (fun '(width, height) i =>
         let x := Math_abs (ToNumber (xPoints this !! i) - ToNumber (Polygon.x this)) in
         let y := Math_abs (ToNumber (yPoints this !! i) - ToNumber (Polygon.y this)) in
         (if x >? width then x else width, if y >? height then y else height))
      (seq 0 (numPoints this)) (0, 0) in
  {| width := width / ToNumber (Polygon.radius this);
     height := height / ToNumber (Polygon.radius this) |}.

(** The test of one edge in [pointIsInPolygon]; [&&] evaluates its right
    operand only when the left one is true. *)
Definition crosses (x y : float) (pi pj : Point.t) : bool :=
  let xi := Point.x pi in
  let yi := Point.y pi in
  let xj := Point.x pj in
  let yj := Point.y pj in
  ((yi >? y) !== (yj >? y)) && (x <? ((xj - xi) * (y - yi)) / (yj - yi) + xi).

Definition pointIsInPolygon {T} `{PolygonLike T} (x y : float) (polygon : T) : bool :=
  let points := points polygon in
  snd (fold_left
         (fun '(j, inside) i =>
            (i, if crosses x y (points !!! i) (points !!! j) then negb inside else inside))
         (seq 0 (length points)) ((length points - 1)%nat, false)).

Definition sample_body {T} `{MathHost} `{PolygonLike T} (x y radius : float) (polygon : T) (i : nat) : option bool :=
  let angle := Number_of_nat i * Math_PI / 4 in
  if pointIsInPolygon (x + Math_cos angle * radius) (y + Math_sin angle * radius) polygon
  then Some true else None.

Definition circleIsInPolygon {T} `{MathHost} `{PolygonLike T} (x y radius : float) (polygon : T) : bool :=
  match for_return 8 0 (sample_body x y radius polygon) with
  | Some r => r
  | None => false
  end.

(** Projection interval of a vertex list on an axis. *)
Definition project (normal : Point.t) (points : list Point.t) : float * float :=
  fold_left
    (fun '(min, max) p =>
       let projected := Point.x normal * Point.x p + Point.y normal * Point.y p in
       (if projected <? min then projected else min,
        if projected >? max then projected else max))
    points (Infinity, - Infinity).

(** The unit normal of the edge leaving vertex [i]. *)
Definition edge_normal (points1 : list Point.t) (i : nat) : Point.t :=
  let point1 := points1 !!! i in
  let point2 := points1 !!! ((i + 1) mod length points1)%nat in
  let edge := Point.mk (Point.x point2 - Point.x point1) (Point.y point2 - Point.y point1) in
  let normal := Point.mk (- Point.y edge) (Point.x edge) in
  let length := Math_sqrt (Point.x normal * Point.x normal + Point.y normal * Point.y normal) in
  Point.mk (Point.x normal / length) (Point.y normal / length).

(** The condition under which the first loop of [isColliding] returns at
    edge [i]. *)
Definition separated (points1 points2 : list Point.t) (i : nat) : bool :=
  let normal := edge_normal points1 i in
  let '(min1, max1) := project normal points1 in
  let '(min2, max2) := project normal points2 in
  (max1 <? min2) || (max2 <? min1).

(** Bodies of the three loops of [isColliding]. *)
Definition axis_body (points1 points2 : list Point.t) (i : nat) : option bool :=
  if separated points1 points2 i then Some false else None.

Definition vertex_body {T} `{PolygonLike T} (points1 : list Point.t) (polygon2 : T) (i : nat) : option bool :=
  if pointIsInPolygon (Point.x (points1 !!! i)) (Point.y (points1 !!! i)) polygon2
  then Some true else None.

Definition isColliding {T1 T2} `{PolygonLike T1} `{PolygonLike T2} (polygon1 : T1) (polygon2 : T2) : bool :=
  let points1 := points polygon1 in
  let points2 := points polygon2 in
  match for_return (length points1) 0 (axis_body points1 points2) with
  | Some r => r
  | None =>
    match for_return (length points1) 0 (vertex_body points1 polygon2) with
    | Some r => r
    | None =>
      match for_return (length points2) 0 (vertex_body points2 polygon1) with
      | Some r => r
      | None => false
      end
    end
  end.

End Polygon.

(** ** The first copy in the file (lines 1-165)

    The constructor, [update], [points] and [borderBox] are the same in both
    copies; the first has neither [pointIsInPolygon] nor [circleIsInPolygon],
    and its [isColliding] does not normalise the edge normal, finds the vertex
    after the last with [||], and has no containment phase. *)

Module Legacy.

Definition edge_normal (points1 : list Point.t) (i : nat) : Point.t :=
  let point1 := points1 !!! i in
  let point2 := default (points1 !!! 0%nat) (points1 !! (i + 1)%nat) in
  Point.mk (Point.y point2 - Point.y point1) (Point.x point1 - Point.x point2).

Definition separated (points1 points2 : list Point.t) (i : nat) : bool :=
  let normal := edge_normal points1 i in
  let '(min1, max1) := Polygon.project normal points1 in
  let '(min2, max2) := Polygon.project normal points2 in
  (max1 <? min2) || (max2 <? min1).

Definition axis_body (points1 points2 : list Point.t) (i : nat) : option bool :=
  if separated points1 points2 i then Some false else None.

Definition isColliding {T1 T2} `{PolygonLike T1} `{PolygonLike T2} (polygon1 : T1) (polygon2 : T2) : bool :=
  let points1 := points polygon1 in
  let points2 := points polygon2 in
  match for_return (length points1) 0 (axis_body points1 points2) with
  | Some r => r
  | None => true
  end.

End Legacy.

(** * Vocabulary of the properties *)

(** ** Shapes and entities of the examples *)

(** The square with corners (±1, ±1). *)
Definition square : list Point.t :=
  [Point.mk (-1) (-1); Point.mk 1 (-1); Point.mk 1 1; Point.mk (-1) 1].

(** The square as a plain object, ten times as large, and moved five units to
    the right. *)
Definition plain_square : PlainPolygon := {| plain_points := square |}.

Definition large_square : PlainPolygon :=
  {| plain_points := [Point.mk (-10) (-10); Point.mk 10 (-10); Point.mk 10 10; Point.mk (-10) 10] |}.

Definition far_square : PlainPolygon :=
  {| plain_points := [Point.mk 4 (-1); Point.mk 6 (-1); Point.mk 6 1; Point.mk 4 1] |}.

(** Two rectangles, six by two and two by six, that cross at the origin. *)
Definition wide_rectangle : PlainPolygon :=
  {| plain_points := [Point.mk (-3) (-1); Point.mk 3 (-1); Point.mk 3 1; Point.mk (-3) 1] |}.

Definition tall_rectangle : PlainPolygon :=
  {| plain_points := [Point.mk (-1) (-3); Point.mk 1 (-3); Point.mk 1 3; Point.mk (-1) 3] |}.

(** The entity built by [new Polygon(square, 0, 0, 1)]. *)
Definition unit_square : Polygon.t :=
  {| Polygon._points := square;
     Polygon.numPoints := 4;
     Polygon.xPoints := [-1; 1; 1; -1];
     Polygon.yPoints := [-1; -1; 1; 1];
     Polygon.x := Some 0;
     Polygon.y := Some 0;
     Polygon.radius := Some 1;
     Polygon.rotation := Some 0 |}.

(** ** The entity *)

(** The invariant of a constructed [Polygon]: the two buffers and the vertex
    count agree with the shape. *)
Definition wf (this : Polygon.t) : Prop :=
  Polygon.numPoints this = length (Polygon._points this) /\
  length (Polygon.xPoints this) = length (Polygon._points this) /\
  length (Polygon.yPoints this) = length (Polygon._points this).

(** The guard of [update]: every argument is [===] to the stored field. *)
Definition pose_unchanged (this : Polygon.t) (x y radius rotation : float) : bool :=
  strict_eq_field x (Polygon.x this) &&
  strict_eq_field y (Polygon.y this) &&
  strict_eq_field radius (Polygon.radius this) &&
  strict_eq_field rotation (Polygon.rotation this).

(** The absolute deviations of a buffer from a centre coordinate, and what it
    is to be their maximum. *)
Definition deviations (buffer : list float) (centre : float) : list float :=
  map (fun v => Math_abs (v - centre)) buffer.

Definition maximum_of (w : float) (l : list float) : Prop :=
  w ∈ l /\ forall d, d ∈ l -> (d <=? w) = true.

(** The loop of [borderBox] on one axis: the largest deviation so far. *)
Definition running_max (l : list float) (w : float) : float :=
  fold_left (fun w d => if d >? w then d else w) l w.

Definition deviation_x (this : Polygon.t) (i : nat) : float :=
  Math_abs (ToNumber (Polygon.xPoints this !! i) - ToNumber (Polygon.x this)).

Definition deviation_y (this : Polygon.t) (i : nat) : float :=
  Math_abs (ToNumber (Polygon.yPoints this !! i) - ToNumber (Polygon.y this)).

(** A centre coordinate [c] from which the two offsets [r] and [-r] are
    computed exactly. *)
Definition exact_offset (c r : float) : Prop :=
  (c + r) - c = r /\ (c + - r) - c = - r.

(** ** Collision *)

(** No edge normal of the first vertex list separates the two lists. *)
Definition no_separating_axis (points1 points2 : list Point.t) : Prop :=
  forall i, (i < length points1)%nat -> Polygon.separated points1 points2 i = false.

(** Some vertex of [vertices] is inside [polygon] by ray casting. *)
Definition some_vertex_inside {T} `{PolygonLike T} (vertices : list Point.t) (polygon : T) : Prop :=
  exists p, p ∈ vertices /\ Polygon.pointIsInPolygon (Point.x p) (Point.y p) polygon = true.

Definition vertex_test {T} `{PolygonLike T} (vertices : list Point.t) (polygon : T) (i : nat) : bool :=
  Polygon.pointIsInPolygon (Point.x (vertices !!! i)) (Point.y (vertices !!! i)) polygon.

(** ** Ray casting *)

(** The even-odd rule, from the description of [pointIsInPolygon]: the edge
    ending at vertex [i] starts at the previous vertex, which for the first
    vertex is the last one; it toggles the flag when the ray's height is
    between its endpoints and the point is left of the intersection. *)
Definition previous_index (n i : nat) : nat :=
  match i with
  | O => (n - 1)%nat
  | S i' => i'
  end.

Definition intersection_x (y xi yi xj yj : float) : float :=
  ((xj - xi) * (y - yi)) / (yj - yi) + xi.

Definition toggles (x y xi yi xj yj : float) : bool :=
  ((yi >? y) !== (yj >? y)) && (x <? intersection_x y xi yi xj yj).

Definition edge_toggles (x y : float) (vertices : list Point.t) (i : nat) : bool :=
  let pi := vertices !!! i in
  let pj := vertices !!! previous_index (length vertices) i in
  toggles x y (Point.x pi) (Point.y pi) (Point.x pj) (Point.y pj).

Definition even_odd (x y : float) (vertices : list Point.t) : bool :=
  Nat.odd (length (List.filter (edge_toggles x y vertices) (seq 0 (length vertices)))).

(** [pointIsInPolygon] run with its failures made visible: [None] stands for
    reading a vertex out of range (a [TypeError] on its [x]) or for reaching
    the division with [yj - yi] equal to zero. *)
Definition checked_div (a b : float) : option float :=
  if b === 0 then None else Some (a / b).

Definition crosses_checked (x y : float) (pi pj : Point.t) : option bool :=
  let xi := Point.x pi in
  let yi := Point.y pi in
  let xj := Point.x pj in
  let yj := Point.y pj in
  if (yi >? y) !== (yj >? y)
  then match checked_div ((xj - xi) * (y - yi)) (yj - yi) with
       | Some q => Some (x <? q + xi)
       | None => None
       end
  else Some false.

Definition step_checked (x y : float) (points : list Point.t)
    (state : option (nat * bool)) (i : nat) : option (nat * bool) :=
  match state with
  | Some (j, inside) =>
    match points !! i, points !! j with
    | Some pi, Some pj =>
      match crosses_checked x y pi pj with
      | Some c => Some (i, if c then negb inside else inside)
      | None => None
      end
    | _, _ => None
    end
  | None => None
  end.

Definition pointIsInPolygon_checked {T} `{PolygonLike T} (x y : float) (polygon : T) : option bool :=
  let points := points polygon in
  option_map snd
    (fold_left (step_checked x y points)
       (seq 0 (length points)) (Some ((length points - 1)%nat, false))).

(** The angle of the [i]-th sample of [circleIsInPolygon]. *)
Definition sample_angle (i : nat) : float := Number_of_nat i * Math_PI / 4.

(** ** Further vocabulary: the entity *)

(** The world position of a local point under a pose. *)
Definition world_x `{MathHost} (x radius rotation : float) (p : Point.t) : float :=
  x + (Point.x p * Math_cos rotation - Point.y p * Math_sin rotation) * radius.

Definition world_y `{MathHost} (y radius rotation : float) (p : Point.t) : float :=
  y + (Point.y p * Math_cos rotation + Point.x p * Math_sin rotation) * radius.

Definition world_point `{MathHost} (x y radius rotation : float) (p : Point.t) : Point.t :=
  Point.mk (world_x x radius rotation p) (world_y y radius rotation p).

(** The entity of a shape under a pose: the pose stored, and in the buffers
    the world position of every local point. *)
Definition posed `{MathHost} (shape : list Point.t) (x y radius rotation : float) : Polygon.t :=
  {| Polygon._points := shape;
     Polygon.numPoints := length shape;
     Polygon.xPoints := map (world_x x radius rotation) shape;
     Polygon.yPoints := map (world_y y radius rotation) shape;
     Polygon.x := Some x;
     Polygon.y := Some y;
     Polygon.radius := Some radius;
     Polygon.rotation := Some rotation |}.

(** The buffers agree with the stored pose. *)
Definition coherent `{MathHost} (this : Polygon.t) : Prop :=
  exists x y radius rotation : float, this = posed (Polygon._points this) x y radius rotation.

(** The pair [[p.x, p.y]] of a point. *)
Definition pair_of_point (p : Point.t) : list float := [Point.x p; Point.y p].

(** ** Further vocabulary: ray casting *)

(** The toggles along a chain of edges that starts at the vertex [prev]. *)
Fixpoint chain (x y : float) (prev : Point.t) (l : list Point.t) : bool :=
  match l with
  | [] => false
  | p :: l' => xorb (Polygon.crosses x y p prev) (chain x y p l')
  end.

(** ** Further vocabulary: projection *)

(** The projections of a vertex list on an axis, and the loop of
    [isColliding] that keeps the least of them. *)
Definition projections (normal : Point.t) (vertices : list Point.t) : list float :=
  map (fun p => Point.x normal * Point.x p + Point.y normal * Point.y p) vertices.

Definition running_min (l : list float) (w : float) : float :=
  fold_left (fun w d => if d <? w then d else w) l w.

(** ** Devices of the proofs about binary64 values *)

Section FloatDevices.
#[local] Open Scope Z_scope.

(** The results of rounding that are neither a zero nor NaN. *)
Inductive nonzero_number : spec_float -> Prop :=
| nonzero_finite s m e : nonzero_number (S754_finite s m e)
| nonzero_infinity s : nonzero_number (S754_infinity s).

(** A key whose lexicographic order is the order of [SFcompare]. *)
Definition SFkey (f : spec_float) : Z * Z * Z :=
  match f with
  | S754_nan => (3, 0, 0)
  | S754_infinity true => (-2, 0, 0)
  | S754_infinity false => (2, 0, 0)
  | S754_zero _ => (0, 0, 0)
  | S754_finite false m e => (1, e, Zpos m)
  | S754_finite true m e => (-1, - e, Zneg m)
  end.

Definition lex_compare (k1 k2 : Z * Z * Z) : comparison :=
  let '(a1, b1, c1) := k1 in
  let '(a2, b2, c2) := k2 in
  match a1 ?= a2 with
  | Eq => match b1 ?= b2 with
          | Eq => c1 ?= c2
          | c => c
          end
  | c => c
  end.

End FloatDevices.

(** A binary64 value that is NaN or has the sign [s]. *)
Definition has_sign (s : bool) (f : spec_float) : Prop :=
  match f with
  | S754_nan => True
  | S754_zero s' | S754_infinity s' | S754_finite s' _ _ => s' = s
  end.


(** * Binary64 arithmetic, from the specification of the primitive floats *)

(** ** Facts about binary64 comparison *)

Lemma SFcompare_Eq_finite (s1 s2 : bool) (m1 m2 : positive) (e1 e2 : Z) :
  SFcompare (S754_finite s1 m1 e1) (S754_finite s2 m2 e2) = Some Eq ->
  s1 = s2 /\ m1 = m2 /\ e1 = e2.
Proof.
  cbn. destruct s1, s2; try discriminate;
    destruct (Z.compare_spec e1 e2) as [He|He|He]; try discriminate;
    intros [= Hm].
  - apply (f_equal CompOpp) in Hm. rewrite CompOpp_involutive in Hm. cbn in Hm.
    apply Pos.compare_eq in Hm. auto.
  - apply Pos.compare_eq in Hm. auto.
Qed.

Lemma SFltb_congr (a b c : spec_float) :
  SFeqb a b = true -> SFltb c a = SFltb c b.
Proof.
  unfold SFeqb. destruct (SFcompare a b) as [[| |]|] eqn:Hab; try discriminate.
  intros _.
  destruct a as [sa|sa| |sa ma ea], b as [sb|sb| |sb mb eb];
    try discriminate; try reflexivity.
  all: try (apply SFcompare_Eq_finite in Hab as (-> & -> & ->); reflexivity).
  all: cbn in Hab; destruct sa, sb; try discriminate.
  all: destruct c as [sc|sc| |sc mc ec]; try reflexivity.
Qed.

Lemma ltb_congr (a b c : float) : (a === b) = true -> (c <? a) = (c <? b).
Proof. rewrite FloatAxioms.eqb_spec, !FloatAxioms.ltb_spec. apply SFltb_congr. Qed.

(** ** Rounding never loses a nonzero value at or above the least exponent *)

Section Rounding.
#[local] Open Scope Z_scope.

Lemma digits2_pos_size (m : positive) : digits2_pos m = Pos.size m.
Proof. induction m; simpl; congruence. Qed.

Lemma digits2_pos_bounds (m : positive) :
  2 ^ (Zpos (digits2_pos m) - 1) <= Zpos m < 2 ^ Zpos (digits2_pos m).
Proof.
  rewrite digits2_pos_size. split.
  - pose proof (Pos.size_le m) as Hle.
    apply Pos2Z.pos_le_pos in Hle. rewrite Pos2Z.inj_pow in Hle.
    replace (Zpos (Pos.size m)) with (Z.succ (Zpos (Pos.size m) - 1)) in Hle by lia.
    rewrite Z.pow_succ_r in Hle by lia. lia.
  - pose proof (Pos.size_gt m) as Hgt.
    apply Pos2Z.pos_lt_pos in Hgt. now rewrite Pos2Z.inj_pow in Hgt.
Qed.

Lemma shr_1_m (mrs : shr_record) :
  0 <= shr_m mrs -> shr_m (shr_1 mrs) = Z.div2 (shr_m mrs).
Proof.
  destruct mrs as [[|[p|p|]|p] r s]; simpl; intros Hm; try reflexivity; lia.
Qed.

Lemma iter_shr_1_m (p : positive) (mrs : shr_record) :
  0 <= shr_m mrs ->
  shr_m (SpecFloat.iter_pos shr_1 p mrs) = Z.shiftr (shr_m mrs) (Zpos p).
Proof.
  revert mrs. induction p as [p IH|p IH|]; intros mrs Hm; cbn [SpecFloat.iter_pos].
  - assert (H1 : 0 <= shr_m (shr_1 mrs)).
    { rewrite shr_1_m by assumption. rewrite Z.div2_div. apply Z.div_pos; lia. }
    assert (H2 : 0 <= shr_m (SpecFloat.iter_pos shr_1 p (shr_1 mrs))).
    { rewrite IH by assumption. apply Z.shiftr_nonneg. assumption. }
    rewrite IH, IH, shr_1_m by assumption.
    rewrite Z.div2_spec, !Z.shiftr_shiftr by lia. f_equal. lia.
  - assert (H2 : 0 <= shr_m (SpecFloat.iter_pos shr_1 p mrs)).
    { rewrite IH by assumption. apply Z.shiftr_nonneg. assumption. }
    rewrite IH, IH by assumption.
    rewrite !Z.shiftr_shiftr by lia. f_equal. lia.
  - rewrite shr_1_m by assumption. now rewrite Z.div2_spec.
Qed.

Lemma shr_record_of_loc_m (m : Z) (l : location) : shr_m (shr_record_of_loc m l) = m.
Proof. destruct l as [|[| |]]; reflexivity. Qed.

Lemma shr_fexp_positive (m : positive) (e : Z) (l : location) :
  emin <= e ->
  0 < shr_m (fst (shr_fexp prec emax (Zpos m) e l)) /\
  emin <= snd (shr_fexp prec emax (Zpos m) e l).
Proof.
  intros He. unfold shr_fexp, shr, Zdigits2.
  set (d := Zpos (digits2_pos m)).
  destruct (fexp prec emax (d + e) - e) as [|p|p] eqn:Hn; simpl;
    rewrite ?shr_record_of_loc_m; try (split; [lia | assumption]).
  pose proof (digits2_pos_bounds m) as [Hlow _]. fold d in Hlow.
  unfold fexp, SpecFloat.emin, prec, emax in *.
  assert (Hp : Zpos p = d - 53) by lia.
  rewrite iter_shr_1_m by (rewrite shr_record_of_loc_m; lia).
  rewrite shr_record_of_loc_m, Z.shiftr_div_pow2 by lia.
  split; [|lia].
  apply Z.div_str_pos. split; [apply Z.pow_pos_nonneg; lia|].
  rewrite Hp. etransitivity; [|exact Hlow].
  apply Z.pow_le_mono_r; lia.
Qed.

Lemma round_nearest_even_positive (m : Z) (l : location) :
  0 < m -> 0 < round_nearest_even m l.
Proof.
  intros Hm. destruct l as [|[| |]]; simpl; try lia.
  destruct (Z.even m); lia.
Qed.

Lemma binary_round_aux_nonzero (s : bool) (m : positive) (e : Z) (l : location) :
  emin <= e -> nonzero_number (binary_round_aux prec emax s (Zpos m) e l).
Proof.
  intros He. unfold binary_round_aux.
  pose proof (shr_fexp_positive m e l He) as [Hm1 He1].
  destruct (shr_fexp prec emax (Zpos m) e l) as [mrs1 e1]. simpl in Hm1, He1.
  pose proof (round_nearest_even_positive (shr_m mrs1) (loc_of_shr_record mrs1) Hm1) as Hr.
  destruct (round_nearest_even _ _) as [|m2|m2]; try lia.
  pose proof (shr_fexp_positive m2 e1 loc_Exact He1) as [Hm2 _].
  destruct (shr_fexp prec emax (Zpos m2) e1 loc_Exact) as [mrs2 e2]. simpl in Hm2.
  destruct (shr_m mrs2); try lia.
  destruct (e2 <=? emax - prec); constructor.
Qed.

Lemma fexp_ge_emin (e : Z) : emin <= fexp prec emax e.
Proof. apply Z.le_max_r. Qed.

Lemma binary_round_nonzero (s : bool) (m : positive) (e : Z) :
  emin <= e -> nonzero_number (binary_round prec emax s m e).
Proof.
  intros He. unfold binary_round, shl_align.
  destruct (fexp prec emax (Zpos (digits2_pos m) + e) - e) eqn:Hn;
    apply binary_round_aux_nonzero; try assumption.
  apply fexp_ge_emin.
Qed.

Lemma binary_normalize_nonzero (z e : Z) (szero : bool) :
  emin <= e -> z <> 0 -> nonzero_number (binary_normalize prec emax z e szero).
Proof.
  intros He Hz. destruct z; [congruence | |]; apply binary_round_nonzero; assumption.
Qed.

End Rounding.

(** ** A difference is a zero only of equal values *)

Section Subtraction.
#[local] Open Scope Z_scope.

(** What validity says of a finite binary64 value [m * 2 ^ e]. *)
Lemma bounded_finite (m : positive) (e : Z) :
  bounded prec emax m e = true ->
  emin <= e /\ Zpos m < 2 ^ 53 /\ (emin < e -> 2 ^ 52 <= Zpos m).
Proof.
  unfold bounded, canonical_mantissa. intros Hb.
  apply andb_true_iff in Hb as [Hc _]. apply Z.eqb_eq in Hc.
  pose proof (digits2_pos_bounds m) as [Hlow Hhigh].
  unfold fexp, SpecFloat.emin, prec, emax in *.
  set (d := Zpos (digits2_pos m)) in *.
  split; [lia|]. split.
  - eapply Z.lt_le_trans; [exact Hhigh|]. apply Z.pow_le_mono_r; lia.
  - intros He. replace 52 with (d - 1) by lia. exact Hlow.
Qed.

Lemma iter_xO_value (m d : positive) :
  Zpos (Pos.iter xO m d) = Zpos m * 2 ^ Zpos d.
Proof.
  induction d as [|d IH] using Pos.peano_ind.
  - simpl. lia.
  - rewrite Pos.iter_succ, Pos2Z.inj_xO, IH, Pos2Z.inj_succ, Z.pow_succ_r by lia. lia.
Qed.

Lemma shl_align_value (m : positive) (e e' : Z) :
  e' <= e -> Zpos (fst (shl_align m e e')) = Zpos m * 2 ^ (e - e').
Proof.
  intros Hle. unfold shl_align.
  destruct (e' - e) as [|p|p] eqn:Hd; simpl.
  - replace (e - e') with 0 by lia. lia.
  - lia.
  - rewrite iter_xO_value. f_equal. f_equal. lia.
Qed.

(** Two valid finite values whose aligned mantissas agree are the same
    value. *)
Lemma aligned_mantissas_eq (mx my : positive) (ex ey : Z) :
  bounded prec emax mx ex = true -> bounded prec emax my ey = true ->
  fst (shl_align mx ex (Z.min ex ey)) = fst (shl_align my ey (Z.min ex ey)) ->
  mx = my /\ ex = ey.
Proof.
  intros Hx Hy Heq.
  apply bounded_finite in Hx as (Hex & Hmx & Hnx).
  apply bounded_finite in Hy as (Hey & Hmy & Hny).
  apply (f_equal Zpos) in Heq.
  rewrite !shl_align_value in Heq by lia.
  destruct (Z.lt_trichotomy ex ey) as [Hlt|[->|Hgt]].
  - exfalso. rewrite Z.min_l, Z.sub_diag, Z.mul_1_r in Heq by lia.
    assert (Hpow : 2 ^ 1 <= 2 ^ (ey - ex)) by (apply Z.pow_le_mono_r; lia).
    specialize (Hny ltac:(lia)). change (2 ^ 53) with (2 ^ 52 * 2 ^ 1) in Hmx. nia.
  - rewrite Z.min_id, Z.sub_diag, !Z.mul_1_r in Heq. split; [congruence | reflexivity].
  - exfalso. rewrite Z.min_r, Z.sub_diag, Z.mul_1_r in Heq by lia.
    assert (Hpow : 2 ^ 1 <= 2 ^ (ex - ey)) by (apply Z.pow_le_mono_r; lia).
    specialize (Hnx ltac:(lia)). change (2 ^ 53) with (2 ^ 52 * 2 ^ 1) in Hmy. nia.
Qed.

Lemma cond_Zopp_sub_zero (sx sy : bool) (mx my : positive) :
  cond_Zopp sx (Zpos mx) - cond_Zopp sy (Zpos my) = 0 -> sx = sy /\ mx = my.
Proof.
  destruct sx, sy; simpl; intros Hz; try lia; split; try reflexivity; lia.
Qed.

(** The difference of two valid values is a zero only if they are the same
    value or both are zeros. *)
Lemma SFsub_zero (a b : spec_float) (s : bool) :
  valid_binary a = true -> valid_binary b = true ->
  SF64sub a b = S754_zero s ->
  a = b \/ exists sa sb, a = S754_zero sa /\ b = S754_zero sb.
Proof.
  intros Ha Hb. unfold SF64sub, SFsub.
  destruct a as [sa|sa| |sa ma ea], b as [sb|sb| |sb mb eb]; try discriminate.
  - intros _. right. eauto.
  - destruct sa, sb; discriminate.
  - simpl in Ha, Hb.
    destruct (Z.eq_dec (cond_Zopp sa (Zpos (fst (shl_align ma ea (Z.min ea eb))))
                        - cond_Zopp sb (Zpos (fst (shl_align mb eb (Z.min ea eb))))) 0)
      as [Hz|Hnz].
    + intros _. left.
      apply cond_Zopp_sub_zero in Hz as [-> Hm].
      destruct (aligned_mantissas_eq ma mb ea eb Ha Hb Hm) as [-> ->]. reflexivity.
    + intros Hres. exfalso.
      pose proof (bounded_finite _ _ Ha) as (Hea & _).
      pose proof (bounded_finite _ _ Hb) as (Heb & _).
      pose proof (binary_normalize_nonzero _ (Z.min ea eb) false ltac:(lia) Hnz) as Hnon.
      rewrite Hres in Hnon. inversion Hnon.
Qed.

End Subtraction.

(** When a third value is below exactly one of two values, their difference
    is not a zero. *)
Lemma SFltb_differ_sub (a b c : spec_float) :
  valid_binary a = true -> valid_binary b = true ->
  SFltb c a <> SFltb c b ->
  SFeqb (SF64sub b a) (S754_zero false) = false.
Proof.
  intros Ha Hb Hdiff.
  destruct (SF64sub b a) as [s|s| |s m e] eqn:Hsub; try reflexivity.
  - exfalso. apply SFsub_zero in Hsub as [->|(sb & sa & -> & ->)]; try assumption.
    + now apply Hdiff.
    + apply Hdiff. destruct c as [sc|sc| |sc mc ec]; reflexivity.
  - destruct s; reflexivity.
  - destruct s; reflexivity.
Qed.

Lemma straddle_divisor (y yi yj : float) :
  xorb (yi >? y) (yj >? y) = true -> ((yj - yi) === 0) = false.
Proof.
  intros Hx. rewrite FloatAxioms.eqb_spec, sub_spec.
  change (Prim2SF 0) with (S754_zero false).
  apply (SFltb_differ_sub _ _ (Prim2SF y)); try apply Prim2SF_valid.
  rewrite <- !FloatAxioms.ltb_spec. intros Heq. rewrite Heq in Hx.
  now rewrite xorb_nilpotent in Hx.
Qed.

(** ** The order of binary64 values that are not NaN *)

Section Order.
#[local] Open Scope Z_scope.

Lemma SFcompare_key (a b : spec_float) :
  a <> S754_nan -> b <> S754_nan ->
  SFcompare a b = Some (lex_compare (SFkey a) (SFkey b)).
Proof.
  intros Ha Hb.
  destruct a as [sa|sa| |sa ma ea], b as [sb|sb| |sb mb eb]; try congruence;
    try (destruct sa; reflexivity); try (destruct sb; reflexivity);
    try (destruct sa, sb; reflexivity).
  destruct sa, sb; try reflexivity; cbn.
  rewrite Z.compare_opp, (Z.compare_antisym ea eb).
  destruct (ea ?= eb); reflexivity.
Qed.

Lemma SFcompare_nan_r (a : spec_float) : SFcompare a S754_nan = None.
Proof. destruct a; reflexivity. Qed.

Lemma SFeqb_refl_iff (a : spec_float) : SFeqb a a = true <-> a <> S754_nan.
Proof.
  split.
  - intros He ->. discriminate.
  - intros Ha. unfold SFeqb. rewrite SFcompare_key by assumption.
    destruct (SFkey a) as [[k1 k2] k3]. cbn. now rewrite !Z.compare_refl.
Qed.

Lemma SFleb_not_nan (a b : spec_float) :
  SFleb a b = true -> a <> S754_nan /\ b <> S754_nan.
Proof.
  unfold SFleb. split; intros ->.
  - discriminate.
  - rewrite SFcompare_nan_r in H. discriminate.
Qed.

Lemma SFltb_not_nan (a b : spec_float) :
  SFltb a b = true -> a <> S754_nan /\ b <> S754_nan.
Proof.
  unfold SFltb. split; intros ->.
  - discriminate.
  - rewrite SFcompare_nan_r in H. discriminate.
Qed.

Ltac lex_cases :=
  repeat match goal with
         | k : (Z * Z * Z)%type |- _ => destruct k as [[? ?] ?]
         end;
  cbn in *;
  repeat match goal with
         | |- context [?a ?= ?b] => destruct (Z.compare_spec a b)
         | H : context [?a ?= ?b] |- _ => destruct (Z.compare_spec a b)
         end;
  try discriminate; try reflexivity; try lia.

Lemma SFleb_refl (a : spec_float) : a <> S754_nan -> SFleb a a = true.
Proof.
  intros Ha. unfold SFleb. rewrite SFcompare_key by assumption.
  generalize (SFkey a). intros k. lex_cases.
Qed.

Lemma SFleb_total (a b : spec_float) :
  a <> S754_nan -> b <> S754_nan -> SFltb a b = false -> SFleb b a = true.
Proof.
  intros Ha Hb. unfold SFltb, SFleb. rewrite !SFcompare_key by assumption.
  generalize (SFkey a) (SFkey b). intros k1 k2. lex_cases.
Qed.

Lemma SFleb_trans (a b c : spec_float) :
  SFleb a b = true -> SFleb b c = true -> SFleb a c = true.
Proof.
  intros Hab Hbc.
  destruct (SFleb_not_nan _ _ Hab) as [Ha Hb].
  destruct (SFleb_not_nan _ _ Hbc) as [_ Hc].
  revert Hab Hbc. unfold SFleb. rewrite !SFcompare_key by assumption.
  generalize (SFkey a) (SFkey b) (SFkey c). intros k1 k2 k3. lex_cases.
Qed.

Lemma SFltb_leb (a b : spec_float) : SFltb a b = true -> SFleb a b = true.
Proof. unfold SFltb, SFleb. now destruct (SFcompare a b) as [[| |]|]. Qed.

Lemma SFltb_irrefl (a : spec_float) : SFltb a a = false.
Proof.
  destruct (SFltb a a) eqn:Hlt; [|reflexivity].
  destruct (SFltb_not_nan _ _ Hlt) as [Ha _].
  revert Hlt. unfold SFltb. rewrite SFcompare_key by assumption.
  generalize (SFkey a). intros k. lex_cases.
Qed.

(** The only absolute value that is at most zero is [+0]. *)
Lemma SFabs_le_zero (v : spec_float) :
  SFleb (SFabs v) (S754_zero false) = true -> SFabs v = S754_zero false.
Proof. destruct v; cbn; intros Hle; try reflexivity; discriminate. Qed.

End Order.

Lemma eqb_refl_iff (a : float) : (a === a) = true <-> Prim2SF a <> S754_nan.
Proof. rewrite FloatAxioms.eqb_spec. apply SFeqb_refl_iff. Qed.

Lemma leb_refl (a : float) : (a === a) = true -> (a <=? a) = true.
Proof. rewrite eqb_refl_iff, leb_spec. apply SFleb_refl. Qed.

Lemma leb_total (a b : float) :
  (a === a) = true -> (b === b) = true -> (a <? b) = false -> (b <=? a) = true.
Proof. rewrite !eqb_refl_iff, FloatAxioms.ltb_spec, leb_spec. apply SFleb_total. Qed.

Lemma leb_trans (a b c : float) :
  (a <=? b) = true -> (b <=? c) = true -> (a <=? c) = true.
Proof. rewrite !leb_spec. apply SFleb_trans. Qed.

Lemma ltb_leb (a b : float) : (a <? b) = true -> (a <=? b) = true.
Proof. rewrite FloatAxioms.ltb_spec, leb_spec. apply SFltb_leb. Qed.

Lemma ltb_irrefl (a : float) : (a <? a) = false.
Proof. rewrite FloatAxioms.ltb_spec. apply SFltb_irrefl. Qed.

Lemma abs_le_zero (v : float) : (abs v <=? 0) = true -> abs v = 0.
Proof.
  rewrite leb_spec, abs_spec. intros Hle.
  apply Prim2SF_inj. rewrite abs_spec. now apply SFabs_le_zero.
Qed.

(** ** Exact products, sums and quotients *)

Section Exact.
#[local] Open Scope Z_scope.

Lemma canonical_fexp (m : positive) (e : Z) :
  bounded prec emax m e = true ->
  fexp prec emax (Zpos (digits2_pos m) + e) = e /\ e <= emax - prec.
Proof.
  unfold bounded, canonical_mantissa. intros Hb.
  apply andb_true_iff in Hb as [Hc He].
  apply Z.eqb_eq in Hc. apply Z.leb_le in He. auto.
Qed.

Lemma shr_fexp_canonical (m : positive) (e : Z) :
  bounded prec emax m e = true ->
  shr_fexp prec emax (Zpos m) e loc_Exact
  = ({| shr_m := Zpos m; shr_r := false; shr_s := false |}, e).
Proof.
  intros Hb. apply canonical_fexp in Hb as [Hc _].
  unfold shr_fexp, Zdigits2. rewrite Hc, Z.sub_diag. reflexivity.
Qed.

Lemma digits2_pos_iter_xO (m k : positive) :
  Zpos (digits2_pos (Pos.iter xO m k)) = Zpos (digits2_pos m) + Zpos k.
Proof.
  induction k as [|k IH] using Pos.peano_ind.
  - simpl. lia.
  - rewrite Pos.iter_succ. cbn [digits2_pos]. lia.
Qed.

(** Rounding [m * 2 ^ 52 * 2 ^ (e - 52)] gives back [m * 2 ^ e]. *)
Lemma binary_round_aux_times_one (s : bool) (m : positive) (e : Z) :
  bounded prec emax m e = true ->
  binary_round_aux prec emax s (Zpos (4503599627370496 * m)) (-52 + e) loc_Exact
  = S754_finite s m e.
Proof.
  intros Hb. pose proof (canonical_fexp m e Hb) as [Hc He].
  assert (Hmul : (4503599627370496 * m)%positive = Pos.iter xO m 52).
  { apply Pos2Z.inj. rewrite iter_xO_value, Pos2Z.inj_mul.
    change (2 ^ 52) with 4503599627370496. lia. }
  unfold binary_round_aux.
  assert (Hfirst : shr_fexp prec emax (Zpos (4503599627370496 * m)) (-52 + e) loc_Exact
                   = ({| shr_m := Zpos m; shr_r := false; shr_s := false |}, e)).
  { unfold shr_fexp, Zdigits2. rewrite Hmul, digits2_pos_iter_xO.
    replace (Zpos (digits2_pos m) + 52 + (-52 + e)) with (Zpos (digits2_pos m) + e) by lia.
    rewrite Hc. replace (e - (-52 + e)) with 52 by lia.
    unfold shr. replace (-52 + e + 52) with e by lia. reflexivity. }
  rewrite Hfirst. cbn [shr_m loc_of_shr_record round_nearest_even].
  rewrite (shr_fexp_canonical m e Hb). cbn [shr_m].
  apply Z.leb_le in He. now rewrite He.
Qed.

Lemma SFmul_one_l (s : bool) (x : spec_float) :
  valid_binary x = true ->
  SF64mul (S754_finite s 4503599627370496 (-52)) x = if s then SFopp x else x.
Proof.
  intros Hx. destruct x as [sx|sx| |sx mx ex]; cbn [SF64mul SFmul SFopp].
  - destruct s; reflexivity.
  - destruct s; reflexivity.
  - destruct s; reflexivity.
  - simpl in Hx. rewrite (binary_round_aux_times_one _ mx ex Hx).
    destruct s; reflexivity.
Qed.

Lemma SFdiv_self (s : bool) (m : positive) (e : Z) :
  SF64div (S754_finite s m e) (S754_finite s m e)
  = S754_finite false 4503599627370496 (-52).
Proof.
  unfold SF64div, SFdiv, SFdiv_core_binary.
  rewrite !Z.sub_diag.
  change (Z.min (fexp prec emax 0) 0) with (-53).
  change (0 - -53) with 53.
  cbv iota beta zeta.
  rewrite Z.shiftl_mul_pow2 by lia.
  assert (Hq : Z.div_eucl (Zpos m * 2 ^ 53) (Zpos m) = (2 ^ 53, 0)).
  { pose proof (Z.div_mul (2 ^ 53) (Zpos m) ltac:(lia)) as Hdiv.
    pose proof (Z.mod_mul (2 ^ 53) (Zpos m) ltac:(lia)) as Hmod.
    rewrite (Z.mul_comm (Zpos m)).
    unfold Z.div, Z.modulo in Hdiv, Hmod.
    destruct (Z.div_eucl (2 ^ 53 * Zpos m) (Zpos m)) as [q r].
    congruence. }
  rewrite Hq.
  assert (Hloc : new_location (Zpos m) 0 = loc_Exact).
  { unfold new_location, new_location_even, new_location_odd.
    destruct (Z.even (Zpos m)); reflexivity. }
  rewrite Hloc. rewrite xorb_nilpotent. reflexivity.
Qed.

End Exact.

Lemma mul_one_l (r : float) : 1 * r = r.
Proof.
  apply Prim2SF_inj. rewrite mul_spec.
  change (Prim2SF 1) with (S754_finite false 4503599627370496 (-52)).
  apply (SFmul_one_l false). apply Prim2SF_valid.
Qed.

Lemma mul_neg_one_l (r : float) : -1 * r = - r.
Proof.
  apply Prim2SF_inj. rewrite mul_spec, opp_spec.
  change (Prim2SF (-1)) with (S754_finite true 4503599627370496 (-52)).
  apply (SFmul_one_l true). apply Prim2SF_valid.
Qed.

Lemma sub_zero_r (r : float) : r - 0 = r.
Proof.
  apply Prim2SF_inj. rewrite sub_spec.
  change (Prim2SF 0) with (S754_zero false).
  destruct (Prim2SF r) as [[|]| | |]; reflexivity.
Qed.

(** A positive value below [Infinity] is a finite one. *)
Lemma positive_finite (r : float) :
  (0 <? r) = true -> (r <? infinity) = true ->
  exists m e, Prim2SF r = S754_finite false m e.
Proof.
  rewrite !FloatAxioms.ltb_spec.
  change (Prim2SF 0) with (S754_zero false).
  change (Prim2SF infinity) with (S754_infinity false).
  destruct (Prim2SF r) as [s|[|]| |[|] m e]; try discriminate; eauto.
Qed.

Section Positive.
Context (r : float) (Hpos : (0 <? r) = true) (Hfin : (r <? infinity) = true).

Lemma add_zero_pos : 0 + r = r.
Proof.
  destruct (positive_finite r Hpos Hfin) as (m & e & Hr).
  apply Prim2SF_inj. rewrite add_spec, Hr. reflexivity.
Qed.

Lemma add_zero_neg : 0 + - r = - r.
Proof.
  destruct (positive_finite r Hpos Hfin) as (m & e & Hr).
  apply Prim2SF_inj. rewrite add_spec, opp_spec, Hr. reflexivity.
Qed.

Lemma abs_pos : abs r = r.
Proof.
  destruct (positive_finite r Hpos Hfin) as (m & e & Hr).
  apply Prim2SF_inj. rewrite abs_spec, Hr. reflexivity.
Qed.

Lemma abs_neg : abs (- r) = r.
Proof.
  destruct (positive_finite r Hpos Hfin) as (m & e & Hr).
  apply Prim2SF_inj. rewrite abs_spec, opp_spec, Hr. reflexivity.
Qed.

Lemma div_self : r / r = 1.
Proof.
  destruct (positive_finite r Hpos Hfin) as (m & e & Hr).
  apply Prim2SF_inj. rewrite div_spec, Hr. apply SFdiv_self.
Qed.

End Positive.

(** * Properties of the class *)

(** ** Loops with an early return *)

Section ForReturn.
Context {R : Type}.
Implicit Types (body : nat -> option R) (n start k : nat).

Lemma for_return_None n start body :
  for_return n start body = None <->
  forall k, (k < n)%nat -> body (start + k)%nat = None.
Proof.
  revert start; induction n as [|n IH]; intros start; simpl.
  - split; [intros _ k Hk; lia | reflexivity].
  - destruct (body start) as [r|] eqn:Hb.
    + split; [discriminate|].
      intros Hall. specialize (Hall 0%nat ltac:(lia)).
      rewrite Nat.add_0_r in Hall. congruence.
    + rewrite IH. split.
      * intros Hall [|k] Hk.
        -- now rewrite Nat.add_0_r.
        -- replace (start + S k)%nat with (S start + k)%nat by lia.
           apply Hall; lia.
      * intros Hall k Hk.
        replace (S start + k)%nat with (start + S k)%nat by lia.
        apply Hall; lia.
Qed.

Lemma for_return_Some n start body r :
  for_return n start body = Some r <->
  exists k, (k < n)%nat /\ body (start + k)%nat = Some r /\
            forall k', (k' < k)%nat -> body (start + k')%nat = None.
Proof.
  revert start; induction n as [|n IH]; intros start; simpl.
  - split; [discriminate | intros (k & Hk & _); lia].
  - destruct (body start) as [r'|] eqn:Hb.
    + split.
      * intros [= ->]. exists 0%nat. rewrite Nat.add_0_r.
        repeat split; [lia | assumption | intros; lia].
      * intros ([|k] & Hk & Hr & Hbefore).
        -- rewrite Nat.add_0_r in Hr. congruence.
        -- specialize (Hbefore 0%nat ltac:(lia)).
           rewrite Nat.add_0_r in Hbefore. congruence.
    + rewrite IH. split.
      * intros (k & Hk & Hr & Hbefore). exists (S k).
        replace (start + S k)%nat with (S start + k)%nat by lia.
        repeat split; [lia | assumption |].
        intros [|k'] Hk'.
        -- now rewrite Nat.add_0_r.
        -- replace (start + S k')%nat with (S start + k')%nat by lia.
           apply Hbefore; lia.
      * intros ([|k] & Hk & Hr & Hbefore).
        -- rewrite Nat.add_0_r in Hr. congruence.
        -- exists k.
           replace (S start + k)%nat with (start + S k)%nat by lia.
           repeat split; [lia | assumption |].
           intros k' Hk'.
           replace (S start + k')%nat with (start + S k')%nat by lia.
           apply Hbefore; lia.
Qed.

(** The loop's outcome is decided by the iterations up to the one that
    returns: the body is not consulted beyond it. *)
Lemma for_return_prefix n body body' k r :
  (k < n)%nat -> body k = Some r ->
  (forall k', (k' < k)%nat -> body k' = None) ->
  (forall j, (j <= k)%nat -> body' j = body j) ->
  for_return n 0 body' = Some r.
Proof.
  intros Hk Hr Hbefore Hagree. apply for_return_Some. exists k. simpl.
  repeat split; [assumption | rewrite Hagree by lia; assumption |].
  intros k' Hk'. rewrite Hagree by lia. now apply Hbefore.
Qed.

End ForReturn.

(** A search loop, whose body returns the constant [c] when a test holds. *)
Lemma for_return_test (test : nat -> bool) (c : bool) (n : nat) :
  for_return n 0 (fun i => if test i then Some c else None) =
  if existsb test (seq 0 n) then Some c else None.
Proof.
  generalize 0%nat as start.
  induction n as [|n IH]; intros start; simpl; [reflexivity|].
  destruct (test start); simpl; [reflexivity | apply IH].
Qed.

Lemma existsb_seq_true (test : nat -> bool) (n : nat) :
  existsb test (seq 0 n) = true <-> exists i, (i < n)%nat /\ test i = true.
Proof.
  rewrite existsb_exists. split.
  - intros (i & Hin & Hi). apply in_seq in Hin. exists i. split; [lia | assumption].
  - intros (i & Hlt & Hi). exists i. split; [apply in_seq; lia | assumption].
Qed.

Lemma existsb_seq_false (test : nat -> bool) (n : nat) :
  existsb test (seq 0 n) = false <-> forall i, (i < n)%nat -> test i = false.
Proof.
  rewrite <- not_true_iff_false, existsb_seq_true. split.
  - intros Hno i Hi. apply not_true_iff_false. intros Ht. apply Hno. eauto.
  - intros Hall (i & Hi & Ht). rewrite (Hall i Hi) in Ht. discriminate.
Qed.

(** ** [isColliding] *)

Lemma some_vertex_inside_test {T} `{PolygonLike T} (vertices : list Point.t) (polygon : T) :
  some_vertex_inside vertices polygon <->
  existsb (vertex_test vertices polygon) (seq 0 (length vertices)) = true.
Proof.
  rewrite existsb_seq_true. unfold some_vertex_inside, vertex_test. split.
  - intros (p & Hin & Hp). apply list_elem_of_lookup in Hin as [i Hi].
    exists i. split; [eapply lookup_lt_Some; eassumption|].
    now rewrite (list_lookup_total_correct _ _ _ Hi).
  - intros (i & Hi & Hp). exists (vertices !!! i). split; [|assumption].
    apply list_elem_of_lookup. exists i. now apply list_lookup_lookup_total_lt.
Qed.

(** The three loops of [isColliding] as three searches. *)
Lemma isColliding_phases {T1 T2 : Type} `{PolygonLike T1} `{PolygonLike T2}
    (polygon1 : T1) (polygon2 : T2) :
  Polygon.isColliding polygon1 polygon2 =
  if existsb (Polygon.separated (points polygon1) (points polygon2))
             (seq 0 (length (points polygon1)))
  then false
  else existsb (vertex_test (points polygon1) polygon2) (seq 0 (length (points polygon1)))
       || existsb (vertex_test (points polygon2) polygon1) (seq 0 (length (points polygon2))).
Proof.
  unfold Polygon.isColliding.
  change (Polygon.axis_body (points polygon1) (points polygon2))
    with (fun i => if Polygon.separated (points polygon1) (points polygon2) i
                   then Some false else None).
  change (Polygon.vertex_body (points polygon1) polygon2)
    with (fun i => if vertex_test (points polygon1) polygon2 i then Some true else None).
  change (Polygon.vertex_body (points polygon2) polygon1)
    with (fun i => if vertex_test (points polygon2) polygon1 i then Some true else None).
  rewrite !for_return_test.
  repeat destruct (existsb _ _); reflexivity.
Qed.

(** Construction with the default rotation does not depend on the host:
    [Math.cos(0)] and [Math.sin(0)] are fixed by ECMAScript. *)
Lemma new_default_rotation `{MathHost} (pts : list Point.t) (x y radius : float) :
  Polygon.new pts x y radius None = Polygon.new (H := series_host) pts x y radius None.
Proof.
  unfold Polygon.new, Polygon.update. simpl.
  now rewrite Math_cos_zero, Math_sin_zero.
Qed.

(** C3. If the edge of polygon A leaving vertex [i] gives projection intervals
    [min1, max1] of A and [min2, max2] of B on its normal with [max1 < min2]
    or [max2 < min1], then [isColliding(A, B)] is false; the first loop
    returns at the first such edge [k], and its outcome does not depend on
    what the body would do at the edges after [k]. *)
Theorem isColliding_separating_axis {T1 T2 : Type} `{PolygonLike T1} `{PolygonLike T2}
    (polygon1 : T1) (polygon2 : T2) (i : nat) (min1 max1 min2 max2 : float) :
  (i < length (points polygon1))%nat ->
  Polygon.project (Polygon.edge_normal (points polygon1) i) (points polygon1) = (min1, max1) ->
  Polygon.project (Polygon.edge_normal (points polygon1) i) (points polygon2) = (min2, max2) ->
  (max1 <? min2) = true \/ (max2 <? min1) = true ->
  Polygon.isColliding polygon1 polygon2 = false /\
  exists k, (k <= i)%nat /\
    Polygon.axis_body (points polygon1) (points polygon2) k = Some false /\
    (forall k', (k' < k)%nat ->
       Polygon.axis_body (points polygon1) (points polygon2) k' = None) /\
    forall body' : nat -> option bool,
      (forall j, (j <= k)%nat ->
         body' j = Polygon.axis_body (points polygon1) (points polygon2) j) ->
      for_return (length (points polygon1)) 0 body' = Some false.
Proof.
  intros Hi Hp1 Hp2 Hsep.
  assert (Hsi : Polygon.separated (points polygon1) (points polygon2) i = true).
  { unfold Polygon.separated. rewrite Hp1, Hp2. apply orb_true_iff. assumption. }
  split.
  - rewrite isColliding_phases.
    replace (existsb _ _) with true; [reflexivity|].
    symmetry. apply existsb_seq_true. eauto.
  - destruct (for_return (length (points polygon1)) 0
                (Polygon.axis_body (points polygon1) (points polygon2))) as [r|] eqn:Hloop.
    + apply for_return_Some in Hloop as (k & Hk & Hr & Hbefore). simpl in Hr, Hbefore.
      assert (Hrf : r = false).
      { unfold Polygon.axis_body in Hr. destruct (Polygon.separated _ _ k); congruence. }
      subst r. exists k. repeat split; try assumption.
      * destruct (Nat.le_gt_cases k i) as [Hle|Hgt]; [assumption|].
        specialize (Hbefore i Hgt). unfold Polygon.axis_body in Hbefore.
        rewrite Hsi in Hbefore. discriminate.
      * intros body' Hagree. eapply for_return_prefix; eassumption.
    + exfalso. rewrite for_return_None in Hloop. specialize (Hloop i Hi). simpl in Hloop.
      unfold Polygon.axis_body in Hloop. rewrite Hsi in Hloop. discriminate.
Qed.

Lemma isColliding_separating_axis_witness :
  Polygon.isColliding plain_square far_square = false /\
  exists k, (k <= 1)%nat /\
    Polygon.axis_body (points plain_square) (points far_square) k = Some false /\
    (forall k', (k' < k)%nat ->
       Polygon.axis_body (points plain_square) (points far_square) k' = None) /\
    forall body' : nat -> option bool,
      (forall j, (j <= k)%nat ->
         body' j = Polygon.axis_body (points plain_square) (points far_square) j) ->
      for_return (length (points plain_square)) 0 body' = Some false.
Proof.
  apply (isColliding_separating_axis plain_square far_square 1 (-1) 1 (-6) (-4)).
  - simpl. lia.
  - reflexivity.
  - reflexivity.
  - right. reflexivity.
Defined.

(** C2. With no separating axis among A's edge normals, if some vertex of A is
    inside B or some vertex of B is inside A, [isColliding(A, B)] is true; in
    particular, on every host, the square of radius 10 at the origin and the
    square of radius 1 at the origin collide, in either order. *)
Theorem isColliding_containment `{MathHost} :
  (forall (T1 T2 : Type) `{PolygonLike T1} `{PolygonLike T2} (polygon1 : T1) (polygon2 : T2),
     no_separating_axis (points polygon1) (points polygon2) ->
     some_vertex_inside (points polygon1) polygon2 \/
     some_vertex_inside (points polygon2) polygon1 ->
     Polygon.isColliding polygon1 polygon2 = true) /\
  exists large small : Polygon.t,
    Polygon.new square 0 0 10 None = Normal large /\
    Polygon.new square 0 0 1 None = Normal small /\
    Polygon.isColliding large small = true /\
    Polygon.isColliding small large = true.
Proof.
  split.
  - intros T1 T2 L1 L2 polygon1 polygon2 Hno Hin.
    rewrite isColliding_phases.
    replace (existsb (Polygon.separated _ _) _) with false.
    + apply orb_true_iff.
      destruct Hin as [Hin|Hin]; [left|right]; now apply some_vertex_inside_test.
    + symmetry. apply existsb_seq_false. exact Hno.
  - eexists _, _.
    split; [rewrite new_default_rotation; vm_compute; reflexivity|].
    split; [rewrite new_default_rotation; vm_compute; reflexivity|].
    split; vm_compute; reflexivity.
Qed.

Lemma isColliding_containment_witness :
  Polygon.isColliding large_square plain_square = true.
Proof.
  apply (proj1 (isColliding_containment (H := series_host))).
  - intros i Hi.
    assert (Hcases : In i (seq 0 4)) by (apply in_seq; simpl in Hi; lia).
    simpl in Hcases. intuition (subst; reflexivity).
  - right. exists (Point.mk 1 1). split; [|reflexivity].
    unfold plain_square, square. simpl. repeat constructor.
Defined.

(** C1. The two crossing rectangles have no separating axis among the edge
    normals of the first, and neither has a vertex inside the other; the
    second copy of [isColliding] answers false for them, while the first copy
    (which stops after the axis loop) answers true. *)
Theorem isColliding_crossing_rectangles :
  map (Polygon.separated (points wide_rectangle) (points tall_rectangle)) (seq 0 4)
    = [false; false; false; false] /\
  map (vertex_test (points wide_rectangle) tall_rectangle) (seq 0 4)
    = [false; false; false; false] /\
  map (vertex_test (points tall_rectangle) wide_rectangle) (seq 0 4)
    = [false; false; false; false] /\
  Polygon.isColliding wide_rectangle tall_rectangle = false /\
  Legacy.isColliding wide_rectangle tall_rectangle = true.
Proof. repeat split; vm_compute; reflexivity. Qed.

(** Without a contained vertex the second copy answers false, whatever the
    axis loop found. *)
Lemma isColliding_without_contained_vertex {T1 T2 : Type} `{PolygonLike T1} `{PolygonLike T2}
    (polygon1 : T1) (polygon2 : T2) :
  ~ some_vertex_inside (points polygon1) polygon2 ->
  ~ some_vertex_inside (points polygon2) polygon1 ->
  Polygon.isColliding polygon1 polygon2 = false.
Proof.
  intros Hno1 Hno2. rewrite isColliding_phases.
  destruct (existsb (Polygon.separated _ _) _); [reflexivity|].
  apply orb_false_iff. split; apply not_true_iff_false.
  - intros Hin. now apply Hno1, some_vertex_inside_test.
  - intros Hin. now apply Hno2, some_vertex_inside_test.
Qed.

(** The first copy answers true exactly when none of its axes separates. *)
Lemma Legacy_isColliding_axes {T1 T2 : Type} `{PolygonLike T1} `{PolygonLike T2}
    (polygon1 : T1) (polygon2 : T2) :
  Legacy.isColliding polygon1 polygon2 =
  negb (existsb (Legacy.separated (points polygon1) (points polygon2))
                (seq 0 (length (points polygon1)))).
Proof.
  unfold Legacy.isColliding.
  change (Legacy.axis_body (points polygon1) (points polygon2))
    with (fun i => if Legacy.separated (points polygon1) (points polygon2) i
                   then Some false else None).
  rewrite for_return_test. now destruct (existsb _ _).
Qed.

(** ** [pointIsInPolygon] and [circleIsInPolygon] *)

Lemma ray_loop_parity (x y : float) (vertices : list Point.t) (m s : nat) (inside : bool) :
  fold_left
    (fun '(j, inside) i =>
       (i, if Polygon.crosses x y (vertices !!! i) (vertices !!! j)
           then negb inside else inside))
    (seq s m) (previous_index (length vertices) s, inside) =
  (previous_index (length vertices) (s + m),
   xorb inside (Nat.odd (length (List.filter (edge_toggles x y vertices) (seq s m))))).
Proof.
  revert s inside. induction m as [|m IH]; intros s inside.
  - simpl. now rewrite Nat.add_0_r, xorb_false_r.
  - cbn [seq fold_left List.filter].
    change s with (previous_index (length vertices) (S s)) at 2.
    rewrite IH. f_equal; [f_equal; lia|].
    change (Polygon.crosses x y (vertices !!! s)
              (vertices !!! previous_index (length vertices) s))
      with (edge_toggles x y vertices s).
    destruct (edge_toggles x y vertices s); [|reflexivity].
    cbn [length]. rewrite Nat.odd_succ, <- Nat.negb_odd.
    now destruct inside, (Nat.odd _).
Qed.

Lemma pointIsInPolygon_even_odd {T} `{PolygonLike T} (x y : float) (polygon : T) :
  Polygon.pointIsInPolygon x y polygon = even_odd x y (points polygon).
Proof.
  unfold Polygon.pointIsInPolygon, even_odd.
  change (length (points polygon) - 1)%nat
    with (previous_index (length (points polygon)) 0).
  now rewrite (ray_loop_parity x y (points polygon)).
Qed.

(** C7. [pointIsInPolygon] is the even-odd rule: over the edges of the closed
    vertex loop (previous vertex [j], current vertex [i], the last vertex
    joined to the first) the flag starts false and is toggled exactly by the
    edges with [(yi > y) != (yj > y)] and
    [x < (xj - xi) * (y - yi) / (yj - yi) + xi]; for the square with corners
    (±1, ±1) the origin is inside and (5, 5) is not. *)
Theorem pointIsInPolygon_ray_casting :
  (forall (T : Type) `{PolygonLike T} (x y : float) (polygon : T),
     Polygon.pointIsInPolygon x y polygon = even_odd x y (points polygon)) /\
  Polygon.pointIsInPolygon 0 0 plain_square = true /\
  Polygon.pointIsInPolygon 5 5 plain_square = false /\
  Polygon.pointIsInPolygon 0 0 unit_square = true /\
  Polygon.pointIsInPolygon 5 5 unit_square = false.
Proof.
  split; [intros; apply pointIsInPolygon_even_odd|].
  repeat split; vm_compute; reflexivity.
Qed.

(** C9. [circleIsInPolygon] is true exactly when one of the eight samples
    [(x + cos(i * PI / 4) * r, y + sin(i * PI / 4) * r)], [i] from 0 to 7, is
    inside the polygon by [pointIsInPolygon]. *)
Theorem circleIsInPolygon_samples `{MathHost} {T : Type} `{PolygonLike T}
    (x y radius : float) (polygon : T) :
  map Number_of_nat (seq 0 8) = [0; 1; 2; 3; 4; 5; 6; 7] /\
  (Polygon.circleIsInPolygon x y radius polygon = true <->
   exists i, (i < 8)%nat /\
     Polygon.pointIsInPolygon (x + Math_cos (sample_angle i) * radius)
                              (y + Math_sin (sample_angle i) * radius) polygon = true).
Proof.
  split; [reflexivity|].
  unfold Polygon.circleIsInPolygon.
  change (Polygon.sample_body x y radius polygon)
    with (fun i => if Polygon.pointIsInPolygon (x + Math_cos (sample_angle i) * radius)
                        (y + Math_sin (sample_angle i) * radius) polygon
                   then Some true else None).
  rewrite (for_return_test _ true 8), <- existsb_seq_true.
  destruct (existsb _ _); intuition congruence.
Qed.

(** Polygons of two vertices: both traversals of the one segment. *)
Lemma pointIsInPolygon_two {T} `{PolygonLike T} (x y : float) (polygon : T) (p0 p1 : Point.t) :
  points polygon = [p0; p1] ->
  Polygon.pointIsInPolygon x y polygon =
  xorb (Polygon.crosses x y p0 p1) (Polygon.crosses x y p1 p0).
Proof.
  intros Hp. unfold Polygon.pointIsInPolygon. rewrite Hp. simpl.
  now destruct (Polygon.crosses x y p0 p1), (Polygon.crosses x y p1 p0).
Qed.

(** C10, as the code has it. With no vertex or one vertex
    [pointIsInPolygon] is false.  With two vertices the two traversed edges
    are the one segment in opposite directions, each with its own rounded
    intersection abscissa: the result is true exactly when the segment
    straddles the ray's height and [x] is left of one abscissa only. *)
Theorem pointIsInPolygon_degenerate {T : Type} `{PolygonLike T} (x y : float) (polygon : T) :
  ((length (points polygon) < 2)%nat -> Polygon.pointIsInPolygon x y polygon = false) /\
  (forall p0 p1 : Point.t, points polygon = [p0; p1] ->
     Polygon.pointIsInPolygon x y polygon =
     ((Point.y p0 >? y) !== (Point.y p1 >? y)) &&
     ((x <? intersection_x y (Point.x p0) (Point.y p0) (Point.x p1) (Point.y p1)) !==
      (x <? intersection_x y (Point.x p1) (Point.y p1) (Point.x p0) (Point.y p0)))).
Proof.
  split.
  - intros Hlen. unfold Polygon.pointIsInPolygon.
    destruct (points polygon) as [|p [|q l]]; simpl in *; [reflexivity| |lia].
    unfold Polygon.crosses. now rewrite xorb_nilpotent.
  - intros p0 p1 Hp. rewrite (pointIsInPolygon_two x y polygon p0 p1 Hp).
    unfold Polygon.crosses, intersection_x.
    destruct (Point.y p0 >? y), (Point.y p1 >? y); simpl;
      rewrite ?xorb_false_r; reflexivity.
Qed.

Lemma pointIsInPolygon_degenerate_witness :
  Polygon.pointIsInPolygon 2 1 {| plain_points := [Point.mk 0 0] |} = false /\
  Polygon.pointIsInPolygon 0 1 {| plain_points := [Point.mk 0 0; Point.mk 2 2] |}
  = ((0 >? 1) !== (2 >? 1)) &&
    ((0 <? intersection_x 1 0 0 2 2) !== (0 <? intersection_x 1 2 2 0 0)).
Proof.
  split.
  - apply (proj1 (pointIsInPolygon_degenerate 2 1 {| plain_points := [Point.mk 0 0] |})).
    simpl. lia.
  - apply (proj2 (pointIsInPolygon_degenerate 0 1
                    {| plain_points := [Point.mk 0 0; Point.mk 2 2] |})
                 (Point.mk 0 0) (Point.mk 2 2)).
    reflexivity.
Defined.

(** A segment from (0, 0) to (1, 3) and the query point (1/3, 1): the edge
    towards (0, 0) meets the ray at [1 * 1 / 3], the edge towards (1, 3) at
    [-1 * -2 / -3 + 1], one unit in the last place to the right. *)
Lemma pointIsInPolygon_two_vertices_true :
  Polygon.pointIsInPolygon (1 / 3) 1 {| plain_points := [Point.mk 0 0; Point.mk 1 3] |} = true.
Proof. vm_compute. reflexivity. Qed.

(** ** [update] *)

Section Update.
Context `{MathHost}.

(** The loop of [update] from index [start]: it completes normally, writes
    the transformed vertex at each index it visits and nothing else. *)
Lemma update_loop (x y radius cos sin : float) (n start : nat) (this : Polygon.t) :
  (start + n <= length (Polygon._points this))%nat ->
  length (Polygon.xPoints this) = length (Polygon._points this) ->
  length (Polygon.yPoints this) = length (Polygon._points this) ->
  exists this',
    for_state n start (Polygon.update_body x y radius cos sin) this = Normal this' /\
    Polygon._points this' = Polygon._points this /\
    Polygon.numPoints this' = Polygon.numPoints this /\
    Polygon.x this' = Polygon.x this /\
    Polygon.y this' = Polygon.y this /\
    Polygon.radius this' = Polygon.radius this /\
    Polygon.rotation this' = Polygon.rotation this /\
    length (Polygon.xPoints this') = length (Polygon.xPoints this) /\
    length (Polygon.yPoints this') = length (Polygon.yPoints this) /\
    forall i : nat,
      ((start <= i < start + n)%nat ->
       forall point, Polygon._points this !! i = Some point ->
         Polygon.xPoints this' !! i
           = Some (x + (Point.x point * cos - Point.y point * sin) * radius) /\
         Polygon.yPoints this' !! i
           = Some (y + (Point.y point * cos + Point.x point * sin) * radius)) /\
      (~ (start <= i < start + n)%nat ->
       Polygon.xPoints this' !! i = Polygon.xPoints this !! i /\
       Polygon.yPoints this' !! i = Polygon.yPoints this !! i).
Proof.
  revert start this. induction n as [|n IH]; intros start this Hrange Hx Hy.
  - exists this. simpl. repeat split; try reflexivity; intros; lia.
  - cbn [for_state]. unfold Polygon.update_body at 1.
    destruct (lookup_lt_is_Some_2 (Polygon._points this) start ltac:(lia)) as [p Hp].
    rewrite Hp. cbn [bind].
    match goal with |- context [for_state n (S start) _ ?s] => set (this1 := s) end.
    destruct (IH (S start) this1) as (this' & Hrun & Hpts & Hnum & Hpx & Hpy & Hrad & Hrot & Hlx & Hly & Hvals).
    { simpl. lia. }
    { subst this1; simpl. now rewrite length_insert. }
    { subst this1; simpl. now rewrite length_insert. }
    exists this'. subst this1. simpl in *.
    rewrite length_insert in Hlx, Hly.
    repeat split; try assumption.
    + destruct (decide (i = start)) as [->|Hne].
      * destruct (Hvals start) as [_ Hout].
        destruct Hout as [-> _]; [lia|].
        rewrite list_lookup_insert_eq by lia. congruence.
      * destruct (Hvals i) as [Hin _]. apply Hin; [lia | assumption].
    + destruct (decide (i = start)) as [->|Hne].
      * destruct (Hvals start) as [_ Hout].
        destruct Hout as [_ ->]; [lia|].
        rewrite list_lookup_insert_eq by lia. congruence.
      * destruct (Hvals i) as [Hin _]. apply Hin; [lia | assumption].
    + destruct (Hvals i) as [_ Hout]. destruct Hout as [-> _]; [lia|].
      apply list_lookup_insert_ne. lia.
    + destruct (Hvals i) as [_ Hout]. destruct Hout as [_ ->]; [lia|].
      apply list_lookup_insert_ne. lia.
Qed.

Lemma update_guard_true (this : Polygon.t) (x y radius rotation : float) :
  pose_unchanged this x y radius rotation = true ->
  Polygon.update this x y radius rotation = Normal (this, ReturnsUndefined).
Proof.
  unfold Polygon.update, pose_unchanged. now intros ->.
Qed.

Lemma pose_unchanged_after (this : Polygon.t) (x y radius rotation : float) :
  Polygon.x this = Some x -> Polygon.y this = Some y ->
  Polygon.radius this = Some radius -> Polygon.rotation this = Some rotation ->
  pose_unchanged this x y radius rotation
  = (x === x) && (y === y) && (radius === radius) && (rotation === rotation).
Proof.
  unfold pose_unchanged. now intros -> -> -> ->.
Qed.

Lemma update_guard_false (this : Polygon.t) (x y radius rotation : float) :
  wf this ->
  pose_unchanged this x y radius rotation = false ->
  exists this',
    Polygon.update this x y radius rotation = Normal (this', ReturnsThis) /\
    Polygon.x this' = Some x /\ Polygon.y this' = Some y /\
    Polygon.radius this' = Some radius /\ Polygon.rotation this' = Some rotation /\
    Polygon._points this' = Polygon._points this /\
    Polygon.numPoints this' = Polygon.numPoints this /\
    wf this' /\
    forall (i : nat) (point : Point.t),
      Polygon._points this !! i = Some point ->
      Polygon.xPoints this' !! i
        = Some (x + (Point.x point * Math_cos rotation
                     - Point.y point * Math_sin rotation) * radius) /\
      Polygon.yPoints this' !! i
        = Some (y + (Point.y point * Math_cos rotation
                     + Point.x point * Math_sin rotation) * radius).
Proof.
  intros (Hnum & Hlx & Hly) Hguard.
  unfold Polygon.update. fold (pose_unchanged this x y radius rotation).
  rewrite Hguard. cbn zeta.
  match goal with |- context [for_state _ 0 _ ?s] => set (this0 := s) end.
  destruct (update_loop x y radius (Math_cos rotation) (Math_sin rotation)
              (Polygon.numPoints this0) 0 this0)
    as (this' & Hrun & Hpts & Hn & Hpx & Hpy & Hrad & Hrot & Hlx' & Hly' & Hvals).
  { subst this0; simpl. lia. }
  { subst this0; simpl. assumption. }
  { subst this0; simpl. assumption. }
  exists this'. rewrite Hrun. subst this0. simpl in *.
  repeat split; try assumption; try congruence.
  all: match goal with
       | Hpt : _ !! ?i = Some _ |- _ =>
           destruct (Hvals i) as [Hin _]; apply Hin; [|assumption];
           apply lookup_lt_Some in Hpt; lia
       end.
Qed.

Lemma update_returns_undefined (this this' : Polygon.t) (x y radius rotation : float) :
  Polygon.update this x y radius rotation = Normal (this', ReturnsUndefined) ->
  pose_unchanged this x y radius rotation = true /\ this' = this.
Proof.
  unfold Polygon.update. fold (pose_unchanged this x y radius rotation).
  destruct (pose_unchanged this x y radius rotation); [intros [= ->]; auto|].
  cbn zeta. destruct (for_state _ _ _ _); discriminate.
Qed.

(** Every call of [update] on a constructed polygon completes normally and
    keeps the invariant. *)
Lemma update_wf (this : Polygon.t) (x y radius rotation : float) :
  wf this ->
  exists (this' : Polygon.t) (r : Returned),
    Polygon.update this x y radius rotation = Normal (this', r) /\ wf this'.
Proof.
  intros Hwf. destruct (pose_unchanged this x y radius rotation) eqn:Hguard.
  - exists this, ReturnsUndefined. split; [now apply update_guard_true | assumption].
  - destruct (update_guard_false this x y radius rotation Hwf Hguard)
      as (this' & Hrun & _ & _ & _ & _ & _ & _ & Hwf' & _).
    exists this', ReturnsThis. auto.
Qed.

(** The constructor completes normally and establishes the invariant. *)
Lemma new_wf (pts : list Point.t) (x y radius : float) (rotation : option float) :
  exists this, Polygon.new pts x y radius rotation = Normal this /\ wf this /\
               Polygon._points this = pts.
Proof.
  unfold Polygon.new.
  match goal with |- context [Polygon.update ?s] => set (this0 := s) end.
  destruct (update_guard_false this0 x y radius (default 0 rotation))
    as (this' & Hrun & _ & _ & _ & _ & Hpts & _ & Hwf & _).
  { subst this0. repeat split; simpl; now rewrite ?length_replicate. }
  { reflexivity. }
  exists this'. rewrite Hrun. simpl. auto.
Qed.

End Update.

(** C4. On a constructed polygon, [update] with a pose of which at least one
    component is not [===] to the stored one stores the pose, sets for every
    local point [(px, py)] at index [i]
    [xPoints[i] = x + (px * cos(rotation) - py * sin(rotation)) * radius] and
    [yPoints[i] = y + (py * cos(rotation) + px * sin(rotation)) * radius],
    and returns the entity. *)
Theorem update_recomputes `{MathHost} (this : Polygon.t) (x y radius rotation : float) :
  wf this ->
  strict_eq_field x (Polygon.x this) = false \/
  strict_eq_field y (Polygon.y this) = false \/
  strict_eq_field radius (Polygon.radius this) = false \/
  strict_eq_field rotation (Polygon.rotation this) = false ->
  exists this',
    Polygon.update this x y radius rotation = Normal (this', ReturnsThis) /\
    Polygon.x this' = Some x /\ Polygon.y this' = Some y /\
    Polygon.radius this' = Some radius /\ Polygon.rotation this' = Some rotation /\
    Polygon._points this' = Polygon._points this /\
    Polygon.numPoints this' = Polygon.numPoints this /\
    wf this' /\
    forall (i : nat) (point : Point.t),
      Polygon._points this !! i = Some point ->
      Polygon.xPoints this' !! i
        = Some (x + (Point.x point * Math_cos rotation
                     - Point.y point * Math_sin rotation) * radius) /\
      Polygon.yPoints this' !! i
        = Some (y + (Point.y point * Math_cos rotation
                     + Point.x point * Math_sin rotation) * radius).
Proof.
  intros Hwf Hdiff. apply update_guard_false; [assumption|].
  unfold pose_unchanged.
  destruct Hdiff as [-> | [-> | [-> | ->]]];
    rewrite ?andb_false_r; reflexivity.
Qed.

Lemma unit_square_constructed `{MathHost} :
  Polygon.new square 0 0 1 None = Normal unit_square.
Proof. rewrite new_default_rotation. vm_compute. reflexivity. Qed.

Lemma unit_square_wf : wf unit_square.
Proof. repeat split. Qed.

Lemma update_recomputes_witness :
  exists this',
    Polygon.update unit_square 5 0 2 0 = Normal (this', ReturnsThis) /\
    Polygon.x this' = Some 5 /\ Polygon.y this' = Some 0 /\
    Polygon.radius this' = Some 2 /\ Polygon.rotation this' = Some 0 /\
    Polygon._points this' = square /\
    Polygon.numPoints this' = 4%nat /\
    wf this' /\
    forall (i : nat) (point : Point.t),
      square !! i = Some point ->
      Polygon.xPoints this' !! i
        = Some (5 + (Point.x point * Math_cos 0 - Point.y point * Math_sin 0) * 2) /\
      Polygon.yPoints this' !! i
        = Some (0 + (Point.y point * Math_cos 0 + Point.x point * Math_sin 0) * 2).
Proof.
  apply (update_recomputes (H := series_host) unit_square 5 0 2 0).
  - repeat split.
  - left. reflexivity.
Defined.

(** C5, as the code has it. [update] with a pose [===] to the stored one
    leaves the whole state as it is and returns [undefined], and only such a
    call returns [undefined]; hence on a constructed polygon, for a pose none
    of whose components is NaN (each is [===] to itself), a second [update]
    with the pose just given is such a call: it changes nothing, does not run
    the loop and returns [undefined]. *)
Theorem update_same_pose `{MathHost} (this : Polygon.t) (x y radius rotation : float) :
  (pose_unchanged this x y radius rotation = true ->
   Polygon.update this x y radius rotation = Normal (this, ReturnsUndefined)) /\
  (forall this' : Polygon.t,
     Polygon.update this x y radius rotation = Normal (this', ReturnsUndefined) ->
     pose_unchanged this x y radius rotation = true /\ this' = this) /\
  (wf this ->
   (x === x) = true -> (y === y) = true ->
   (radius === radius) = true -> (rotation === rotation) = true ->
   exists (this1 : Polygon.t) (r1 : Returned),
     Polygon.update this x y radius rotation = Normal (this1, r1) /\
     Polygon.update this1 x y radius rotation = Normal (this1, ReturnsUndefined)).
Proof.
  split; [apply update_guard_true|].
  split; [intros this'; apply update_returns_undefined|].
  intros Hwf Hx Hy Hr Hrot.
  destruct (pose_unchanged this x y radius rotation) eqn:Hguard.
  - exists this, ReturnsUndefined.
    split; now apply update_guard_true.
  - destruct (update_guard_false this x y radius rotation Hwf Hguard)
      as (this1 & Hrun & Hpx & Hpy & Hprad & Hprot & _).
    exists this1, ReturnsThis. split; [assumption|].
    apply update_guard_true.
    rewrite (pose_unchanged_after this1 x y radius rotation Hpx Hpy Hprad Hprot).
    now rewrite Hx, Hy, Hr, Hrot.
Qed.

Lemma update_same_pose_witness :
  Polygon.update unit_square 0 0 1 0 = Normal (unit_square, ReturnsUndefined) /\
  exists (this1 : Polygon.t) (r1 : Returned),
    Polygon.update unit_square 5 0 2 0 = Normal (this1, r1) /\
    Polygon.update this1 5 0 2 0 = Normal (this1, ReturnsUndefined).
Proof.
  split.
  - apply (proj1 (update_same_pose (H := series_host) unit_square 0 0 1 0)).
    reflexivity.
  - apply (proj2 (proj2 (update_same_pose (H := series_host) unit_square 5 0 2 0)));
      first [exact unit_square_wf | reflexivity].
Defined.

(** A pose with a NaN component is never [===] to the stored one: the second
    of two calls with it runs the loop again and returns the entity. *)
Lemma update_nan_pose_twice :
  exists this1 : Polygon.t,
    Polygon.update unit_square nan 0 1 0 = Normal (this1, ReturnsThis) /\
    Polygon.update this1 nan 0 1 0 = Normal (this1, ReturnsThis).
Proof. eexists. split; vm_compute; reflexivity. Qed.

(** ** The division of [pointIsInPolygon] *)

Lemma crosses_level_edge (x y : float) (pi pj : Point.t) :
  (Point.y pi === Point.y pj) = true -> Polygon.crosses x y pi pj = false.
Proof.
  intros Heq. unfold Polygon.crosses.
  rewrite (ltb_congr _ _ y Heq), xorb_nilpotent. reflexivity.
Qed.

Lemma crosses_checked_total (x y : float) (pi pj : Point.t) :
  crosses_checked x y pi pj = Some (Polygon.crosses x y pi pj).
Proof.
  unfold crosses_checked, Polygon.crosses, checked_div.
  destruct ((Point.y pi >? y) !== (Point.y pj >? y)) eqn:Hstraddle; [|reflexivity].
  now rewrite (straddle_divisor _ _ _ Hstraddle).
Qed.

Lemma checked_loop (x y : float) (vertices : list Point.t) (m s j : nat) (inside : bool) :
  (s + m <= length vertices)%nat ->
  (0 < m -> j < length vertices)%nat ->
  fold_left (step_checked x y vertices) (seq s m) (Some (j, inside)) =
  Some (fold_left
          (fun '(j, inside) i =>
             (i, if Polygon.crosses x y (vertices !!! i) (vertices !!! j)
                 then negb inside else inside))
          (seq s m) (j, inside)).
Proof.
  revert s j inside. induction m as [|m IH]; intros s j inside Hs Hj; [reflexivity|].
  cbn [seq fold_left]. unfold step_checked at 2.
  rewrite (list_lookup_lookup_total_lt vertices s) by lia.
  rewrite (list_lookup_lookup_total_lt vertices j) by (apply Hj; lia).
  rewrite crosses_checked_total. apply IH; lia.
Qed.

(** C8. An edge whose endpoints have equal [y] never toggles the flag; the
    division is reached only when [(yi > y) != (yj > y)], and then [yi] and
    [yj] are not equal and [yj - yi] is not a zero: the run that signals a
    zero divisor, or a vertex read out of range, never does, and returns what
    [pointIsInPolygon] returns. *)
Theorem pointIsInPolygon_divisor :
  (forall (x y : float) (pi pj : Point.t),
     (Point.y pi === Point.y pj) = true -> Polygon.crosses x y pi pj = false) /\
  (forall (y : float) (pi pj : Point.t),
     ((Point.y pi >? y) !== (Point.y pj >? y)) = true ->
     (Point.y pi === Point.y pj) = false /\
     ((Point.y pj - Point.y pi) === 0) = false) /\
  (forall (T : Type) `{PolygonLike T} (x y : float) (polygon : T),
     pointIsInPolygon_checked x y polygon = Some (Polygon.pointIsInPolygon x y polygon)).
Proof.
  split; [exact crosses_level_edge|]. split.
  - intros y pi pj Hstraddle. split; [|now apply (straddle_divisor y)].
    destruct (Point.y pi === Point.y pj) eqn:Heq; [|reflexivity].
    rewrite (ltb_congr _ _ y Heq), xorb_nilpotent in Hstraddle. discriminate.
  - intros T L x y polygon.
    unfold pointIsInPolygon_checked, Polygon.pointIsInPolygon.
    rewrite checked_loop; [reflexivity | lia | lia].
Qed.

Lemma pointIsInPolygon_divisor_witness :
  Polygon.crosses 0 2 (Point.mk (-1) 1) (Point.mk 1 1) = false /\
  ((1 === 3) = false /\ ((3 - 1) === 0) = false).
Proof.
  split.
  - apply (proj1 pointIsInPolygon_divisor). reflexivity.
  - apply (proj1 (proj2 pointIsInPolygon_divisor) 2 (Point.mk 0 1) (Point.mk 0 3)).
    reflexivity.
Defined.

(** ** [borderBox] *)

Lemma borderBox_axes (this : Polygon.t) :
  Polygon.borderBox this =
  {| width := running_max (map (deviation_x this) (seq 0 (Polygon.numPoints this))) 0
              / ToNumber (Polygon.radius this);
     height := running_max (map (deviation_y this) (seq 0 (Polygon.numPoints this))) 0
               / ToNumber (Polygon.radius this) |}.
Proof.
  unfold Polygon.borderBox, running_max.
  generalize (seq 0 (Polygon.numPoints this)) as l.
  generalize 0 at 1 3 as w. generalize 0 at 1 2 as h.
  intros h w l. revert w h.
  induction l as [|i l IH]; intros w h; [reflexivity|].
  cbn [fold_left map]. apply IH.
Qed.

Lemma map_lookup_seq (g : float -> float) (buffer : list float) :
  map (fun i => g (ToNumber (buffer !! i))) (seq 0 (length buffer)) = map g buffer.
Proof.
  induction buffer as [|v buffer IH]; [reflexivity|].
  cbn [length seq map]. f_equal.
  rewrite <- seq_shift, map_map. exact IH.
Qed.

Lemma running_max_spec (l : list float) (w : float) :
  (w === w) = true ->
  (forall d, d ∈ l -> (d === d) = true) ->
  (running_max l w = w \/ running_max l w ∈ l) /\
  (w <=? running_max l w) = true /\
  forall d, d ∈ l -> (d <=? running_max l w) = true.
Proof.
  revert w. induction l as [|d l IH]; intros w Hw Hl.
  - cbn. split; [now left|]. split; [now apply leb_refl|].
    intros d Hd. inversion Hd.
  - assert (Hd : (d === d) = true) by (apply Hl; left).
    assert (Hl' : forall d', d' ∈ l -> (d' === d') = true)
      by (intros d' Hd'; apply Hl; now right).
    unfold running_max. cbn [fold_left]. fold (running_max l (if d >? w then d else w)).
    destruct (d >? w) eqn:Hlt.
    + destruct (IH d Hd Hl') as (Hmem & Hle & Hall).
      split; [right; destruct Hmem as [-> | Hmem]; [left | now right]|].
      split; [eapply leb_trans; [apply ltb_leb; exact Hlt | exact Hle]|].
      intros d' Hd'. apply elem_of_cons in Hd' as [-> | Hd']; auto.
    + destruct (IH w Hw Hl') as (Hmem & Hle & Hall).
      split; [destruct Hmem as [-> | Hmem]; [now left | right; now right]|].
      split; [exact Hle|].
      intros d' Hd'. apply elem_of_cons in Hd' as [-> | Hd']; auto.
      eapply leb_trans; [|exact Hle]. now apply leb_total.
Qed.

(** From zero, over the deviations of a buffer that is not empty, the loop
    ends on their maximum. *)
Lemma running_max_deviations (buffer : list float) (centre : float) :
  buffer <> [] ->
  (forall d, d ∈ deviations buffer centre -> (d === d) = true) ->
  maximum_of (running_max (deviations buffer centre) 0) (deviations buffer centre).
Proof.
  intros Hne Hnan.
  destruct (running_max_spec (deviations buffer centre) 0 eq_refl Hnan)
    as (Hmem & _ & Hall).
  split; [|exact Hall].
  destruct Hmem as [Hzero | Hmem]; [|exact Hmem].
  destruct buffer as [|v buffer]; [congruence|].
  specialize (Hall (Math_abs (v - centre)) ltac:(left)).
  rewrite Hzero in Hall |- *. apply abs_le_zero in Hall.
  unfold deviations. cbn [map]. unfold Math_abs at 1. rewrite Hall. left.
Qed.

Lemma deviation_lists (this : Polygon.t) :
  wf this ->
  map (deviation_x this) (seq 0 (Polygon.numPoints this))
    = deviations (Polygon.xPoints this) (ToNumber (Polygon.x this)) /\
  map (deviation_y this) (seq 0 (Polygon.numPoints this))
    = deviations (Polygon.yPoints this) (ToNumber (Polygon.y this)).
Proof.
  intros (Hnum & Hlx & Hly). unfold deviation_x, deviation_y, deviations. split.
  - rewrite Hnum, <- Hlx.
    apply (map_lookup_seq (fun v => Math_abs (v - ToNumber (Polygon.x this)))).
  - rewrite Hnum, <- Hly.
    apply (map_lookup_seq (fun v => Math_abs (v - ToNumber (Polygon.y this)))).
Qed.

(** The square built with the default rotation: its world vertices. *)
Lemma square_vertices `{MathHost} (x y r : float) :
  Polygon.new square x y r None =
  Normal {| Polygon._points := square;
            Polygon.numPoints := 4;
            Polygon.xPoints := [x + - r; x + r; x + r; x + - r];
            Polygon.yPoints := [y + - r; y + - r; y + r; y + r];
            Polygon.x := Some x;
            Polygon.y := Some y;
            Polygon.radius := Some r;
            Polygon.rotation := Some 0 |}.
Proof.
  rewrite new_default_rotation. vm_compute.
  now rewrite !mul_one_l, !mul_neg_one_l.
Qed.

Lemma exact_offset_origin (r : float) :
  (0 <? r) = true -> (r <? infinity) = true -> exact_offset 0 r.
Proof.
  intros Hpos Hfin. unfold exact_offset.
  now rewrite (add_zero_pos r Hpos Hfin), (add_zero_neg r Hpos Hfin), !sub_zero_r.
Qed.

Lemma square_box `{MathHost} (x y r : float) :
  (0 <? r) = true -> (r <? infinity) = true ->
  exact_offset x r -> exact_offset y r ->
  exists this : Polygon.t,
    Polygon.new square x y r None = Normal this /\
    Polygon.borderBox this = {| width := 1; height := 1 |}.
Proof.
  intros Hpos Hfin [Hxp Hxn] [Hyp Hyn].
  eexists. split; [apply square_vertices|].
  rewrite borderBox_axes.
  unfold deviation_x, deviation_y, Math_abs. cbn. unfold id.
  rewrite Hxp, Hxn, Hyp, Hyn.
  rewrite !(abs_pos r Hpos Hfin), !(abs_neg r Hpos Hfin).
  unfold running_max. cbn [fold_left].
  rewrite Hpos, !ltb_irrefl.
  now rewrite (div_self r Hpos Hfin).
Qed.

(** C6, as the code has it. On a constructed polygon with at least one
    vertex, none of whose deviations [|xPoints[i] - x|], [|yPoints[i] - y|] is
    NaN, [borderBox()] returns the maximum deviation on each axis divided by
    [radius]; in particular the square with local points (±1, ±1), built with
    the default rotation and a positive finite radius [r] at a centre from
    which the offsets [r] and [-r] are computed exactly, has the box
    [{width: 1, height: 1}], and the origin is such a centre. *)
Theorem borderBox_extent `{MathHost} :
  (forall this : Polygon.t,
     wf this -> (1 <= Polygon.numPoints this)%nat ->
     (forall d,
        d ∈ deviations (Polygon.xPoints this) (ToNumber (Polygon.x this)) ++
            deviations (Polygon.yPoints this) (ToNumber (Polygon.y this)) ->
        (d === d) = true) ->
     exists w h : float,
       Polygon.borderBox this =
       {| width := w / ToNumber (Polygon.radius this);
          height := h / ToNumber (Polygon.radius this) |} /\
       maximum_of w (deviations (Polygon.xPoints this) (ToNumber (Polygon.x this))) /\
       maximum_of h (deviations (Polygon.yPoints this) (ToNumber (Polygon.y this)))) /\
  (forall x y r : float,
     (0 <? r) = true -> (r <? infinity) = true ->
     exact_offset x r -> exact_offset y r ->
     exists this : Polygon.t,
       Polygon.new square x y r None = Normal this /\
       Polygon.borderBox this = {| width := 1; height := 1 |}) /\
  (forall r : float,
     (0 <? r) = true -> (r <? infinity) = true ->
     exists this : Polygon.t,
       Polygon.new square 0 0 r None = Normal this /\
       Polygon.borderBox this = {| width := 1; height := 1 |}).
Proof.
  split; [|split].
  - intros this Hwf Hone Hnan.
    destruct (deviation_lists this Hwf) as [Hdx Hdy].
    destruct Hwf as (Hnum & Hlx & Hly).
    rewrite borderBox_axes, Hdx, Hdy.
    eexists _, _. split; [reflexivity|]. split.
    + apply running_max_deviations.
      * intros Hnil. rewrite Hnil in Hlx. simpl in Hlx. lia.
      * intros d Hd. apply Hnan, elem_of_app. now left.
    + apply running_max_deviations.
      * intros Hnil. rewrite Hnil in Hly. simpl in Hly. lia.
      * intros d Hd. apply Hnan, elem_of_app. now right.
  - exact square_box.
  - intros r Hpos Hfin.
    apply square_box; try assumption; now apply exact_offset_origin.
Qed.

Lemma borderBox_extent_witness :
  (exists w h : float,
     Polygon.borderBox unit_square = {| width := w / 1; height := h / 1 |} /\
     maximum_of w [1; 1; 1; 1] /\ maximum_of h [1; 1; 1; 1]) /\
  (exists this : Polygon.t,
     Polygon.new square 3 (-4) 2 None = Normal this /\
     Polygon.borderBox this = {| width := 1; height := 1 |}) /\
  exists this : Polygon.t,
    Polygon.new square 0 0 2 None = Normal this /\
    Polygon.borderBox this = {| width := 1; height := 1 |}.
Proof.
  split; [|split].
  - apply (proj1 (borderBox_extent (H := series_host)) unit_square).
    + exact unit_square_wf.
    + simpl. lia.
    + intros d Hd. vm_compute in Hd.
      repeat (apply elem_of_cons in Hd as [-> | Hd]; [reflexivity|]).
      inversion Hd.
  - apply (proj1 (proj2 (borderBox_extent (H := series_host))) 3 (-4) 2);
      first [reflexivity | split; reflexivity].
  - apply (proj2 (proj2 (borderBox_extent (H := series_host))) 2); reflexivity.
Defined.

(** With a negative radius the extents are divided by it as it is; far from
    the origin the vertices are rounded onto the centre; and a deviation that
    is NaN is skipped by the comparisons of the loop. *)
Lemma borderBox_not_unit :
  (exists this : Polygon.t,
     Polygon.new square 0 0 (-2) None = Normal this /\
     Polygon.borderBox this = {| width := -1; height := -1 |}) /\
  (exists this : Polygon.t,
     Polygon.new square 0x1p70 0 1 None = Normal this /\
     Polygon.borderBox this = {| width := 0; height := 1 |}) /\
  (exists this : Polygon.t,
     Polygon.new square nan 0 1 None = Normal this /\
     deviations (Polygon.xPoints this) (ToNumber (Polygon.x this)) = [nan; nan; nan; nan] /\
     Polygon.borderBox this = {| width := 0; height := 1 |}).
Proof. repeat split; eexists; repeat split; vm_compute; reflexivity. Qed.

(** * Further properties *)

(** ** [arrayToObject] *)

Lemma map_lookup_total_seq {A B : Type} `{Inhabited A} (g : A -> B) (l : list A) :
  map (fun i => g (l !!! i)) (seq 0 (length l)) = map g l.
Proof.
  induction l as [|a l IH]; [reflexivity|].
  cbn [length seq map]. f_equal.
  rewrite <- seq_shift, map_map. exact IH.
Qed.

Lemma lookup_map {A B : Type} (g : A -> B) (l : list A) (i : nat) (a : A) :
  l !! i = Some a -> map g l !! i = Some (g a).
Proof.
  revert i. induction l as [|b l IH]; intros [|i] Hi; try discriminate.
  - now injection Hi as ->.
  - now apply IH.
Qed.

Lemma arrayToObject_map (list : list (list float)) :
  Polygon.arrayToObject list
  = map (fun pair => ObjectPoint.mk (pair !! 0%nat) (pair !! 1%nat)) list.
Proof.
  unfold Polygon.arrayToObject.
  apply (map_lookup_total_seq (fun pair => ObjectPoint.mk (pair !! 0%nat) (pair !! 1%nat))).
Qed.

(** X1. [arrayToObject] keeps the length and the order of its input: entry [i]
    is [{x: list[i][0], y: list[i][1]}], a pair shorter than two Numbers
    giving [undefined] coordinates and a longer one losing its tail; so it
    gives back the points whose pairs [[p.x, p.y]] it is given. *)
Theorem arrayToObject_entries :
  (forall list : list (list float),
     length (Polygon.arrayToObject list) = length list /\
     forall (i : nat) (pair : Datatypes.list float),
       list !! i = Some pair ->
       Polygon.arrayToObject list !! i
       = Some (ObjectPoint.mk (pair !! 0%nat) (pair !! 1%nat))) /\
  (forall points : list Point.t,
     map to_point (Polygon.arrayToObject (map pair_of_point points)) = points).
Proof.
  split.
  - intros list. rewrite arrayToObject_map. split; [apply length_map|].
    intros i pair Hpair.
    now apply (lookup_map (fun pair => ObjectPoint.mk (pair !! 0%nat) (pair !! 1%nat))).
  - intros points. rewrite arrayToObject_map, !map_map.
    rewrite <- (map_id points) at 2. apply map_ext. now intros [px py].
Qed.

Lemma arrayToObject_entries_witness :
  Polygon.arrayToObject [[1; 2]; [3]; [4; 5; 6]] !! 1%nat
  = Some (ObjectPoint.mk (Some 3) None).
Proof.
  apply (proj2 (proj1 arrayToObject_entries [[1; 2]; [3]; [4; 5; 6]]) 1%nat [3]).
  reflexivity.
Defined.

(** ** The constructor, [update] and the [points] view *)

Section Entity.
Context `{MathHost}.

Lemma list_eq_lookup_map {A : Type} (g : Point.t -> A) (shape : list Point.t) (buffer : list A) :
  length buffer = length shape ->
  (forall i p, shape !! i = Some p -> buffer !! i = Some (g p)) ->
  buffer = map g shape.
Proof.
  revert buffer. induction shape as [|p shape IH]; intros [|b buffer] Hlen Hall;
    try discriminate; [reflexivity|].
  cbn [map]. f_equal.
  - specialize (Hall 0%nat p eq_refl). now injection Hall.
  - apply IH; [now injection Hlen|].
    intros i q Hq. exact (Hall (S i) q Hq).
Qed.

(** A recomputing [update] leaves the entity of the shape under the new
    pose, whatever the buffers and the pose were. *)
Lemma update_posed (this : Polygon.t) (x y radius rotation : float) :
  wf this ->
  pose_unchanged this x y radius rotation = false ->
  Polygon.update this x y radius rotation
  = Normal (posed (Polygon._points this) x y radius rotation, ReturnsThis).
Proof.
  intros Hwf Hguard.
  destruct (update_guard_false this x y radius rotation Hwf Hguard)
    as (this' & Hrun & Hx & Hy & Hr & Hrot & Hpts & Hn & (Hn' & Hlx & Hly) & Hvals).
  rewrite Hrun. f_equal. f_equal.
  destruct this' as [pts' n' xs' ys' x' y' r' rot']. cbn in *. subst.
  unfold posed. f_equal; try assumption.
  - apply list_eq_lookup_map; [assumption|]. intros i p Hp. now apply Hvals.
  - apply list_eq_lookup_map; [assumption|]. intros i p Hp. now apply Hvals.
Qed.

Lemma posed_wf (shape : list Point.t) (x y radius rotation : float) :
  wf (posed shape x y radius rotation).
Proof. repeat split; cbn; now rewrite ?length_map. Qed.

Lemma posed_points (shape : list Point.t) (x y radius rotation : float) :
  points (posed shape x y radius rotation) = map (world_point x y radius rotation) shape.
Proof.
  unfold points, Polygon.polygon_like, Polygon.get_points, posed. cbn.
  induction shape as [|p shape IH]; [reflexivity|].
  cbn [length seq map]. f_equal.
  rewrite <- seq_shift, map_map. exact IH.
Qed.

Lemma new_posed (shape : list Point.t) (x y radius : float) (rotation : option float) :
  Polygon.new shape x y radius rotation
  = Normal (posed shape x y radius (default 0 rotation)).
Proof.
  unfold Polygon.new. rewrite update_posed; [reflexivity| |reflexivity].
  repeat split; cbn; now rewrite ?length_replicate.
Qed.

End Entity.

(** X2. [new Polygon(shape, x, y, radius, rotation)] never throws; it stores
    the pose, with rotation 0 when none is given, and its [points] are, in
    order, the local points rotated, scaled by [radius] and moved to
    [(x, y)]. *)
Theorem new_points `{MathHost} (shape : list Point.t) (x y radius : float)
    (rotation : option float) :
  exists this : Polygon.t,
    Polygon.new shape x y radius rotation = Normal this /\
    wf this /\
    Polygon._points this = shape /\
    Polygon.x this = Some x /\ Polygon.y this = Some y /\
    Polygon.radius this = Some radius /\
    Polygon.rotation this = Some (default 0 rotation) /\
    points this = map (world_point x y radius (default 0 rotation)) shape.
Proof.
  eexists. split; [apply new_posed|].
  split; [apply posed_wf|].
  repeat (split; [reflexivity|]). apply posed_points.
Qed.

(** X3. The buffers of a polygon always agree with its stored pose: the
    constructor makes them so, every [update] completes and keeps them so
    without touching the shape, and then [points] is the image of the shape
    under the stored pose. *)
Theorem update_coherent `{MathHost} :
  (forall (shape : list Point.t) (x y radius : float) (rotation : option float),
     exists this : Polygon.t,
       Polygon.new shape x y radius rotation = Normal this /\ coherent this) /\
  (forall (this : Polygon.t) (x y radius rotation : float),
     coherent this ->
     exists (this' : Polygon.t) (returned : Returned),
       Polygon.update this x y radius rotation = Normal (this', returned) /\
       coherent this' /\
       Polygon._points this' = Polygon._points this) /\
  (forall this : Polygon.t,
     coherent this ->
     points this
     = map (world_point (ToNumber (Polygon.x this)) (ToNumber (Polygon.y this))
                        (ToNumber (Polygon.radius this)) (ToNumber (Polygon.rotation this)))
           (Polygon._points this)).
Proof.
  split; [|split].
  - intros shape x y radius rotation. eexists. split; [apply new_posed|].
    now exists x, y, radius, (default 0 rotation).
  - intros this x y radius rotation Hco.
    assert (Hwf : wf this).
    { destruct Hco as (x0 & y0 & r0 & rot0 & ->). apply posed_wf. }
    destruct (pose_unchanged this x y radius rotation) eqn:Hguard.
    + exists this, ReturnsUndefined.
      split; [now apply update_guard_true | auto].
    + eexists _, _. split; [now apply update_posed|].
      split; [|reflexivity]. now exists x, y, radius, rotation.
  - intros this (x & y & radius & rotation & Heq).
    rewrite Heq at 1. rewrite posed_points. now rewrite Heq.
Qed.

Lemma update_coherent_witness :
  exists (this' : Polygon.t) (returned : Returned),
    Polygon.update unit_square 5 0 2 0 = Normal (this', returned) /\
    coherent this' /\
    Polygon._points this' = square.
Proof.
  apply (proj1 (proj2 (update_coherent (H := series_host))) unit_square 5 0 2 0).
  exists 0, 0, 1, 0. vm_compute. reflexivity.
Defined.

(** X4. Calling [update] twice with one pose leaves the state the first call
    left, for every pose: when a NaN component makes the second call run the
    loop again, it writes the same values. *)
Theorem update_twice `{MathHost} (this : Polygon.t) (x y radius rotation : float) :
  wf this ->
  exists (this1 : Polygon.t) (r1 r2 : Returned),
    Polygon.update this x y radius rotation = Normal (this1, r1) /\
    Polygon.update this1 x y radius rotation = Normal (this1, r2).
Proof.
  intros Hwf.
  destruct (pose_unchanged this x y radius rotation) eqn:Hguard.
  - exists this, ReturnsUndefined, ReturnsUndefined.
    split; now apply update_guard_true.
  - rewrite (update_posed this x y radius rotation Hwf Hguard).
    set (this1 := posed (Polygon._points this) x y radius rotation).
    destruct (pose_unchanged this1 x y radius rotation) eqn:Hguard1.
    + exists this1, ReturnsThis, ReturnsUndefined.
      split; [reflexivity | now apply update_guard_true].
    + exists this1, ReturnsThis, ReturnsThis. split; [reflexivity|].
      now rewrite (update_posed this1 x y radius rotation (posed_wf _ _ _ _ _) Hguard1).
Qed.

Lemma update_twice_witness :
  exists (this1 : Polygon.t) (r1 r2 : Returned),
    Polygon.update unit_square nan 0 1 0 = Normal (this1, r1) /\
    Polygon.update this1 nan 0 1 0 = Normal (this1, r2).
Proof.
  apply (update_twice (H := series_host) unit_square nan 0 1 0).
  exact unit_square_wf.
Defined.

(** ** Signs, zeros and NaN in binary64 *)

Lemma binary_round_aux_has_sign (s : bool) (m e : Z) (l : location) :
  has_sign s (binary_round_aux prec emax s m e l).
Proof.
  unfold binary_round_aux.
  destruct (shr_fexp prec emax m e l) as [mrs1 e1].
  destruct (shr_fexp prec emax _ e1 loc_Exact) as [mrs2 e2].
  destruct (shr_m mrs2); [reflexivity | | exact I].
  destruct (e2 <=? emax - prec)%Z; reflexivity.
Qed.

Lemma SFdiv_has_sign (a b : spec_float) (sa sb : bool) :
  has_sign sa a -> has_sign sb b -> has_sign (xorb sa sb) (SF64div a b).
Proof.
  destruct a as [s1|s1| |s1 m1 e1], b as [s2|s2| |s2 m2 e2]; cbn;
    try (intros -> ->; reflexivity); try (intros; exact I).
  intros -> ->.
  destruct (SFdiv_core_binary prec emax (Zpos m1) e1 (Zpos m2) e2) as [[mz ez] lz].
  apply binary_round_aux_has_sign.
Qed.

Lemma SFltb_zero_has_sign (f : spec_float) :
  has_sign false f -> SFltb f (S754_zero false) = false.
Proof. destruct f; cbn; try reflexivity; now intros ->. Qed.

Lemma positive_has_sign (r : float) : (0 <? r) = true -> has_sign false (Prim2SF r).
Proof.
  rewrite FloatAxioms.ltb_spec. change (Prim2SF 0) with (S754_zero false).
  destruct (Prim2SF r) as [s|[|]| |[|] m e]; cbn; try discriminate; reflexivity.
Qed.

Lemma abs_has_sign (v : float) : has_sign false (Prim2SF (abs v)).
Proof. rewrite abs_spec. now destruct (Prim2SF v). Qed.

Lemma ltb_true_not_nan (a b : float) : (a <? b) = true -> (b === b) = true.
Proof.
  rewrite FloatAxioms.ltb_spec, eqb_refl_iff. intros Hlt. now apply SFltb_not_nan in Hlt.
Qed.

(** ** More of [borderBox] *)

(** What holds of zero and of every deviation that is not NaN holds of the
    extent the loop ends on. *)
Lemma running_max_invariant (P : float -> Prop) (l : list float) (w : float) :
  P w -> Forall (fun d => (d === d) = true -> P d) l -> P (running_max l w).
Proof.
  revert w. induction l as [|d l IH]; intros w Hw Hl; [exact Hw|].
  inversion Hl as [|d' l' Hd Hl']; subst.
  unfold running_max. cbn [fold_left]. fold (running_max l (if d >? w then d else w)).
  apply IH; [|assumption].
  destruct (d >? w) eqn:Hlt; [|exact Hw].
  apply Hd. now apply (ltb_true_not_nan w).
Qed.

Lemma extents_invariant (P : float -> Prop) (this : Polygon.t) :
  P 0 -> (forall v, (abs v === abs v) = true -> P (abs v)) ->
  P (running_max (map (deviation_x this) (seq 0 (Polygon.numPoints this))) 0) /\
  P (running_max (map (deviation_y this) (seq 0 (Polygon.numPoints this))) 0).
Proof.
  intros Hzero Habs.
  split; apply running_max_invariant; try assumption;
    apply Forall_map, Forall_forall; intros i _; apply Habs.
Qed.

(** X5. With a positive radius no extent of [borderBox()] is negative,
    whatever the buffers hold. *)
Theorem borderBox_not_negative (this : Polygon.t) (r : float) :
  Polygon.radius this = Some r ->
  (0 <? r) = true ->
  (width (Polygon.borderBox this) <? 0) = false /\
  (height (Polygon.borderBox this) <? 0) = false.
Proof.
  intros Hr Hpos. rewrite borderBox_axes, Hr. cbn [width height ToNumber default].
  unfold id.
  assert (Hextents := extents_invariant (fun w => has_sign false (Prim2SF w)) this
                       eq_refl (fun v _ => abs_has_sign v)).
  destruct Hextents as [Hw Hh].
  split; rewrite FloatAxioms.ltb_spec, div_spec;
    apply SFltb_zero_has_sign;
    apply (SFdiv_has_sign _ _ false false); auto using positive_has_sign.
Qed.

Lemma borderBox_not_negative_witness :
  (width (Polygon.borderBox unit_square) <? 0) = false /\
  (height (Polygon.borderBox unit_square) <? 0) = false.
Proof.
  apply (borderBox_not_negative unit_square 1); reflexivity.
Defined.

(** The loop never ends below the value it starts from. *)
Lemma running_max_spec_start (l : list float) (w : float) :
  (w === w) = true -> (w <=? running_max l w) = true.
Proof.
  revert w. induction l as [|d l IH]; intros w Hw; [now apply leb_refl|].
  unfold running_max. cbn [fold_left]. fold (running_max l (if d >? w then d else w)).
  destruct (d >? w) eqn:Hlt.
  - eapply leb_trans; [apply ltb_leb; exact Hlt|].
    apply IH. now apply (ltb_true_not_nan w).
  - now apply IH.
Qed.

(** The loop never ends below a deviation that is not NaN. *)
Lemma running_max_ge (l : list float) (w d : float) :
  (w === w) = true -> d ∈ l -> (d === d) = true ->
  (d <=? running_max l w) = true.
Proof.
  revert w. induction l as [|d' l IH]; intros w Hw Hin Hd; [inversion Hin|].
  unfold running_max. cbn [fold_left]. fold (running_max l (if d' >? w then d' else w)).
  assert (Hw' : ((if d' >? w then d' else w) === (if d' >? w then d' else w)) = true).
  { destruct (d' >? w) eqn:Hlt; [now apply (ltb_true_not_nan w) | assumption]. }
  apply elem_of_cons in Hin as [-> | Hin]; [|now apply IH].
  eapply leb_trans; [|apply (running_max_spec_start l _ Hw')].
  destruct (d' >? w) eqn:Hlt; [now apply leb_refl | now apply leb_total].
Qed.

Lemma running_max_stays (l : list float) (w : float) :
  Forall (fun d => (d >? w) = false) l -> running_max l w = w.
Proof.
  induction 1 as [|d l Hd Hl IH]; [reflexivity|].
  unfold running_max. cbn [fold_left]. rewrite Hd. exact IH.
Qed.

Lemma SFsub_diag_finite (s : bool) (m : positive) (e : Z) :
  SF64sub (S754_finite s m e) (S754_finite s m e) = S754_zero false.
Proof.
  unfold SF64sub, SFsub. now rewrite Z.sub_diag.
Qed.

(** A vertex scaled by a zero radius does not deviate from the centre: its
    deviation is zero, or NaN when the centre or the local offset is not
    finite. *)
Lemma collapsed_deviation (c t r : float) :
  (r === 0) = true -> (abs ((c + t * r) - c) >? 0) = false.
Proof.
  rewrite FloatAxioms.eqb_spec, FloatAxioms.ltb_spec, abs_spec, sub_spec, add_spec, mul_spec.
  change (Prim2SF 0) with (S754_zero false).
  destruct (Prim2SF r) as [sr|sr| |sr mr er];
    try discriminate; try (destruct sr; discriminate).
  intros _.
  destruct (Prim2SF t) as [st|st| |st mt et], (Prim2SF c) as [sc|sc| |sc mc ec];
    try reflexivity;
    try (destruct sc, st, sr; reflexivity);
    try (destruct sc; reflexivity).
  all: cbn [SF64mul SFmul SF64add SFadd]; now rewrite SFsub_diag_finite.
Qed.

Lemma zero_over_zero (r : float) : (r === 0) = true -> 0 / r = nan.
Proof.
  rewrite FloatAxioms.eqb_spec. change (Prim2SF 0) with (S754_zero false).
  intros Hr. apply Prim2SF_inj. rewrite div_spec.
  change (Prim2SF 0) with (S754_zero false). change (Prim2SF nan) with S754_nan.
  destruct (Prim2SF r) as [sr|sr| |sr mr er];
    try discriminate; try (destruct sr; discriminate).
  reflexivity.
Qed.

(** X6. A polygon built or updated with a radius equal to zero has all its
    vertices on its centre, and [borderBox()] divides zero by zero: both
    extents are NaN, on every host and for every shape, centre and
    rotation. *)
Theorem borderBox_zero_radius `{MathHost} (this : Polygon.t) (r : float) :
  coherent this ->
  Polygon.radius this = Some r ->
  (r === 0) = true ->
  Polygon.borderBox this = {| width := nan; height := nan |}.
Proof.
  intros (x & y & radius & rotation & Heq) Hr Hzero.
  assert (Hwf : wf this) by (rewrite Heq; apply posed_wf).
  destruct (deviation_lists this Hwf) as [Hdx Hdy].
  rewrite borderBox_axes, Hdx, Hdy, Hr. cbn [ToNumber default]. unfold id.
  rewrite Heq in Hr. cbn in Hr. injection Hr as ->.
  rewrite Heq. cbn [posed Polygon.xPoints Polygon.yPoints Polygon.x Polygon.y
                    ToNumber default]. unfold id, deviations.
  rewrite !map_map, !running_max_stays, (zero_over_zero r Hzero); [reflexivity| |].
  - apply Forall_map, Forall_forall. intros p _. now apply collapsed_deviation.
  - apply Forall_map, Forall_forall. intros p _. now apply collapsed_deviation.
Qed.

Lemma borderBox_zero_radius_witness :
  Polygon.borderBox (posed square 3 4 0 0) = {| width := nan; height := nan |}.
Proof.
  apply (borderBox_zero_radius (H := series_host) (posed square 3 4 0 0) 0).
  - exists 3, 4, 0, 0. reflexivity.
  - reflexivity.
  - reflexivity.
Defined.

(** ** More of [pointIsInPolygon] and [circleIsInPolygon] *)

Lemma ray_loop_chain (x y : float) (l2 l1 : list Point.t) (j : nat) (inside : bool) :
  snd (fold_left
         (fun '(j, inside) i =>
            (i, if Polygon.crosses x y ((l1 ++ l2) !!! i) ((l1 ++ l2) !!! j)
                then negb inside else inside))
         (seq (length l1) (length l2)) (j, inside))
  = xorb inside (chain x y ((l1 ++ l2) !!! j) l2).
Proof.
  revert l1 j inside. induction l2 as [|p l2 IH]; intros l1 j inside.
  - cbn. now rewrite xorb_false_r.
  - cbn [length seq fold_left chain].
    assert (Hp : (l1 ++ p :: l2) !!! length l1 = p)
      by now apply list_lookup_total_middle.
    rewrite Hp.
    specialize (IH (l1 ++ [p]) (length l1)
                  (if Polygon.crosses x y p ((l1 ++ p :: l2) !!! j)
                   then negb inside else inside)).
    rewrite <- app_assoc, length_app, Nat.add_1_r in IH. cbn [app] in IH.
    rewrite IH, Hp.
    now destruct (Polygon.crosses x y p _), inside, (chain x y p l2).
Qed.

Lemma pointIsInPolygon_chain {T} `{PolygonLike T} (x y : float) (polygon : T) :
  Polygon.pointIsInPolygon x y polygon
  = chain x y (points polygon !!! (length (points polygon) - 1)%nat) (points polygon).
Proof.
  unfold Polygon.pointIsInPolygon.
  exact (ray_loop_chain x y (points polygon) [] _ false).
Qed.

Lemma last_cons (l : list Point.t) (p d : Point.t) :
  List.last (p :: l) d = List.last l p.
Proof.
  revert p d. induction l as [|q l IH]; intros p d; [reflexivity|].
  change (List.last (p :: q :: l) d) with (List.last (q :: l) d).
  now rewrite !IH.
Qed.

Lemma chain_app (x y : float) (l1 l2 : list Point.t) (prev : Point.t) :
  chain x y prev (l1 ++ l2)
  = xorb (chain x y prev l1) (chain x y (List.last l1 prev) l2).
Proof.
  revert prev. induction l1 as [|p l1 IH]; intros prev; [reflexivity|].
  cbn [app chain]. rewrite IH, last_cons.
  now destruct (Polygon.crosses x y p prev), (chain x y p l1), (chain x y _ l2).
Qed.

Lemma final_vertex (l : list Point.t) (d : Point.t) :
  l <> [] -> l !!! (length l - 1)%nat = List.last l d.
Proof.
  destruct l as [|p l]; [congruence|]. intros _.
  cbn [length]. rewrite Nat.sub_1_r. cbn [Nat.pred].
  revert p. induction l as [|q l IH]; intros p; [reflexivity|].
  change (List.last (p :: q :: l) d) with (List.last (q :: l) d).
  rewrite <- IH. reflexivity.
Qed.

Lemma last_app_nonempty (l1 l2 : list Point.t) (d d' : Point.t) :
  l2 <> [] -> List.last (l1 ++ l2) d = List.last l2 d'.
Proof.
  destruct l2 as [|q l2]; [congruence|]. intros _.
  revert d. induction l1 as [|p l1 IH]; intros d.
  - cbn [app]. now rewrite !last_cons.
  - cbn [app]. rewrite last_cons. apply IH.
Qed.

(** X7. [pointIsInPolygon] does not depend on the vertex the list starts at:
    a polygon and the same vertices taken from any other starting vertex, in
    the same cyclic order, give the same answer at every point. *)
Theorem pointIsInPolygon_rotation (x y : float) (l1 l2 : list Point.t) :
  Polygon.pointIsInPolygon x y {| plain_points := l1 ++ l2 |}
  = Polygon.pointIsInPolygon x y {| plain_points := l2 ++ l1 |}.
Proof.
  destruct l1 as [|p1 l1]; [now rewrite app_nil_r|].
  destruct l2 as [|p2 l2]; [now rewrite app_nil_r|].
  rewrite !pointIsInPolygon_chain.
  change (points {| plain_points := ?l |}) with l.
  rewrite !(final_vertex _ p1) by discriminate.
  rewrite (last_app_nonempty (p1 :: l1) (p2 :: l2) p1 p1) by discriminate.
  rewrite (last_app_nonempty (p2 :: l2) (p1 :: l1) p1 p1) by discriminate.
  rewrite !chain_app, !last_cons. apply xorb_comm.
Qed.

Lemma chain_no_crossing (x y : float) (l : list Point.t) (prev : Point.t) :
  (forall p q, p ∈ l -> q ∈ prev :: l -> Polygon.crosses x y p q = false) ->
  chain x y prev l = false.
Proof.
  revert prev. induction l as [|p l IH]; intros prev Hall; [reflexivity|].
  cbn [chain]. rewrite (Hall p prev), IH; [reflexivity| | |].
  - intros p' q' Hp' Hq'. apply Hall; [now right|].
    right. exact Hq'.
  - left.
  - left.
Qed.

(** Where no pair of vertices makes a crossing edge, no point is inside. *)
Lemma pointIsInPolygon_no_crossing {T} `{PolygonLike T} (x y : float) (polygon : T) :
  (forall p q, p ∈ points polygon -> q ∈ points polygon ->
     Polygon.crosses x y p q = false) ->
  Polygon.pointIsInPolygon x y polygon = false.
Proof.
  intros Hall. rewrite pointIsInPolygon_chain.
  destruct (points polygon) as [|p0 l] eqn:Hpts; [reflexivity|].
  apply chain_no_crossing. intros p q Hp Hq. apply Hall; [exact Hp|].
  apply elem_of_cons in Hq as [-> | Hq]; [|exact Hq].
  apply list_elem_of_lookup. exists (length (p0 :: l) - 1)%nat.
  apply list_lookup_lookup_total_lt. cbn. lia.
Qed.

Lemma ltb_nan_l (a b : float) : (a === a) = false -> (a <? b) = false.
Proof.
  intros Ha. destruct (a <? b) eqn:Hlt; [|reflexivity].
  rewrite FloatAxioms.ltb_spec in Hlt. apply SFltb_not_nan in Hlt as [Hn _].
  apply eqb_refl_iff in Hn. congruence.
Qed.

Lemma ltb_nan_r (a b : float) : (b === b) = false -> (a <? b) = false.
Proof.
  intros Hb. destruct (a <? b) eqn:Hlt; [|reflexivity].
  apply ltb_true_not_nan in Hlt. congruence.
Qed.

Lemma pointIsInPolygon_nan_query {T} `{PolygonLike T} (x y : float) (polygon : T) :
  (x === x) = false \/ (y === y) = false ->
  Polygon.pointIsInPolygon x y polygon = false.
Proof.
  intros Hnan. apply pointIsInPolygon_no_crossing. intros p q _ _.
  unfold Polygon.crosses. destruct Hnan as [Hx | Hy].
  - rewrite (ltb_nan_l x _ Hx). apply andb_false_r.
  - now rewrite !(ltb_nan_l y _ Hy).
Qed.

(** X8. A query point with a NaN coordinate is inside no polygon. *)
Theorem pointIsInPolygon_nan {T : Type} `{PolygonLike T} (x y : float) (polygon : T) :
  (x === x) = false \/ (y === y) = false ->
  Polygon.pointIsInPolygon x y polygon = false.
Proof. apply pointIsInPolygon_nan_query. Qed.

Lemma pointIsInPolygon_nan_witness :
  Polygon.pointIsInPolygon nan 0 plain_square = false.
Proof.
  apply (pointIsInPolygon_nan nan 0 plain_square). left. reflexivity.
Defined.

(** X9. A point whose height is not strictly between vertex heights is
    outside: when [yi > y] has one value at every vertex (the point is at or
    above all of them, or below all of them), [pointIsInPolygon] is false. *)
Theorem pointIsInPolygon_height {T : Type} `{PolygonLike T} (x y : float) (polygon : T)
    (above : bool) :
  (forall p, p ∈ points polygon -> (Point.y p >? y) = above) ->
  Polygon.pointIsInPolygon x y polygon = false.
Proof.
  intros Hside. apply pointIsInPolygon_no_crossing. intros p q Hp Hq.
  unfold Polygon.crosses. now rewrite (Hside p Hp), (Hside q Hq), xorb_nilpotent.
Qed.

Lemma pointIsInPolygon_height_witness :
  Polygon.pointIsInPolygon 0 1 plain_square = false.
Proof.
  apply (pointIsInPolygon_height 0 1 plain_square false).
  intros p Hp. unfold plain_square, square in Hp. cbn in Hp.
  repeat (apply elem_of_cons in Hp as [-> | Hp]; [reflexivity|]).
  inversion Hp.
Defined.

Lemma add_nan (a b : float) :
  (a === a) = false \/ (b === b) = false -> ((a + b) === (a + b)) = false.
Proof.
  intros Hnan. apply not_true_iff_false. rewrite eqb_refl_iff, add_spec. intros Hsum.
  apply Hsum. destruct Hnan as [Ha | Hb].
  - apply not_true_iff_false in Ha. rewrite eqb_refl_iff in Ha.
    destruct (Prim2SF a); try (exfalso; apply Ha; discriminate). reflexivity.
  - apply not_true_iff_false in Hb. rewrite eqb_refl_iff in Hb.
    destruct (Prim2SF b); try (exfalso; apply Hb; discriminate).
    now destruct (Prim2SF a).
Qed.

Lemma mul_nan_r (a b : float) : (b === b) = false -> ((a * b) === (a * b)) = false.
Proof.
  intros Hb. apply not_true_iff_false. rewrite eqb_refl_iff, mul_spec. intros Hprod.
  apply Hprod. apply not_true_iff_false in Hb. rewrite eqb_refl_iff in Hb.
  destruct (Prim2SF b); try (exfalso; apply Hb; discriminate).
  now destruct (Prim2SF a).
Qed.

(** X10. A circle whose centre or radius has a NaN is in no polygon, on every
    host: each of its eight samples has a NaN coordinate. *)
Theorem circleIsInPolygon_nan `{MathHost} {T : Type} `{PolygonLike T}
    (x y radius : float) (polygon : T) :
  (x === x) = false \/ (y === y) = false \/ (radius === radius) = false ->
  Polygon.circleIsInPolygon x y radius polygon = false.
Proof.
  intros Hnan. unfold Polygon.circleIsInPolygon.
  replace (for_return 8 0 (Polygon.sample_body x y radius polygon)) with (@None bool);
    [reflexivity|].
  symmetry. apply for_return_None. intros k _. unfold Polygon.sample_body.
  rewrite pointIsInPolygon_nan_query; [reflexivity|].
  destruct Hnan as [Hx | [Hy | Hr]].
  - left. apply add_nan. now left.
  - right. apply add_nan. now left.
  - left. apply add_nan. right. now apply mul_nan_r.
Qed.

Lemma circleIsInPolygon_nan_witness :
  Polygon.circleIsInPolygon 0 0 nan plain_square = false.
Proof.
  apply (circleIsInPolygon_nan (H := series_host) 0 0 nan plain_square).
  right. right. reflexivity.
Defined.

(** ** More of [isColliding] *)

(** X11. The second copy of [isColliding] answers true exactly when no edge
    normal of the first polygon separates the two and some vertex of one
    polygon is inside the other by [pointIsInPolygon]. *)
Theorem isColliding_iff {T1 T2 : Type} `{PolygonLike T1} `{PolygonLike T2}
    (polygon1 : T1) (polygon2 : T2) :
  Polygon.isColliding polygon1 polygon2 = true <->
  no_separating_axis (points polygon1) (points polygon2) /\
  (some_vertex_inside (points polygon1) polygon2 \/
   some_vertex_inside (points polygon2) polygon1).
Proof.
  rewrite isColliding_phases, !some_vertex_inside_test.
  unfold no_separating_axis. rewrite <- existsb_seq_false.
  destruct (existsb (Polygon.separated _ _) _).
  - split; [discriminate | intros [Hno _]; discriminate].
  - rewrite orb_true_iff. tauto.
Qed.

Lemma pointIsInPolygon_few {T} `{PolygonLike T} (x y : float) (polygon : T) :
  (length (points polygon) < 2)%nat -> Polygon.pointIsInPolygon x y polygon = false.
Proof.
  intros Hlen. apply pointIsInPolygon_no_crossing. intros p q Hp Hq.
  destruct (points polygon) as [|p0 [|p1 l]]; [inversion Hp| |cbn in Hlen; lia].
  apply list_elem_of_singleton in Hp as ->. apply list_elem_of_singleton in Hq as ->.
  unfold Polygon.crosses. now rewrite xorb_nilpotent.
Qed.

(** X12. Polygons without vertices collide with nothing, and two polygons of
    fewer than two vertices each do not collide: [isColliding] is false. *)
Theorem isColliding_degenerate {T1 T2 : Type} `{PolygonLike T1} `{PolygonLike T2}
    (polygon1 : T1) (polygon2 : T2) :
  points polygon1 = [] \/ points polygon2 = [] \/
  ((length (points polygon1) < 2)%nat /\ (length (points polygon2) < 2)%nat) ->
  Polygon.isColliding polygon1 polygon2 = false.
Proof.
  intros Hcases.
  assert (Hfew : forall (T : Type) (L : PolygonLike T) (polygon : T),
             points polygon = [] -> (length (points polygon) < 2)%nat)
    by (intros T L polygon ->; cbn; lia).
  assert (Hnone : forall (T : Type) (L : PolygonLike T) (polygon : T) (vertices : list Point.t),
             vertices = [] \/ (length (points polygon) < 2)%nat ->
             ~ some_vertex_inside vertices polygon).
  { intros T L polygon vertices [-> | Hlen] (p & Hp & Hin).
    - inversion Hp.
    - rewrite pointIsInPolygon_few in Hin by assumption. discriminate. }
  apply isColliding_without_contained_vertex; apply Hnone;
    destruct Hcases as [H1 | [H2 | [H1 H2]]]; auto.
Qed.

Lemma isColliding_degenerate_witness :
  Polygon.isColliding plain_square {| plain_points := [] |} = false.
Proof.
  apply (isColliding_degenerate plain_square {| plain_points := [] |}).
  right. left. reflexivity.
Defined.

(** ** The first copy of [isColliding] *)

Lemma next_vertex_wraps (l : list Point.t) (i : nat) :
  (i < length l)%nat ->
  default (l !!! 0%nat) (l !! (i + 1)%nat) = l !!! ((i + 1) mod length l)%nat.
Proof.
  intros Hi. destruct (decide (i + 1 = length l)%nat) as [Hlast | Hmid].
  - rewrite Hlast, Nat.Div0.mod_same, lookup_ge_None_2 by lia. reflexivity.
  - rewrite Nat.mod_small by lia.
    now rewrite (list_lookup_lookup_total_lt l (i + 1)) by lia.
Qed.

(** X13. The first copy of [isColliding] answers true exactly when none of
    its edge normals separates the two polygons, each edge running, as in the
    second copy, from vertex [i] to vertex [(i + 1) % length]; so a first
    polygon without vertices collides with every polygon. *)
Theorem Legacy_isColliding_iff {T1 T2 : Type} `{PolygonLike T1} `{PolygonLike T2}
    (polygon1 : T1) (polygon2 : T2) :
  (Legacy.isColliding polygon1 polygon2 = true <->
   forall i, (i < length (points polygon1))%nat ->
     Legacy.separated (points polygon1) (points polygon2) i = false) /\
  (forall i, (i < length (points polygon1))%nat ->
     Legacy.edge_normal (points polygon1) i
     = let point1 := points polygon1 !!! i in
       let point2 := points polygon1 !!! ((i + 1) mod length (points polygon1))%nat in
       Point.mk (Point.y point2 - Point.y point1) (Point.x point1 - Point.x point2)) /\
  (points polygon1 = [] -> Legacy.isColliding polygon1 polygon2 = true).
Proof.
  assert (Hiff : Legacy.isColliding polygon1 polygon2 = true <->
                 forall i, (i < length (points polygon1))%nat ->
                   Legacy.separated (points polygon1) (points polygon2) i = false).
  { rewrite Legacy_isColliding_axes, negb_true_iff. apply existsb_seq_false. }
  split; [exact Hiff|]. split.
  - intros i Hi. unfold Legacy.edge_normal. now rewrite next_vertex_wraps.
  - intros Hempty. apply Hiff. rewrite Hempty. cbn. intros i Hi. lia.
Qed.

Lemma Legacy_isColliding_iff_witness :
  Legacy.isColliding {| plain_points := [] |} plain_square = true.
Proof.
  apply (proj2 (proj2 (Legacy_isColliding_iff {| plain_points := [] |} plain_square))).
  reflexivity.
Defined.

(** ** The projection interval *)

Lemma project_axes (normal : Point.t) (vertices : list Point.t) :
  Polygon.project normal vertices
  = (running_min (projections normal vertices) Infinity,
     running_max (projections normal vertices) (- Infinity)).
Proof.
  unfold Polygon.project, running_min, running_max, projections.
  generalize Infinity (- Infinity).
  induction vertices as [|p vertices IH]; intros mn mx; [reflexivity|].
  cbn [fold_left map]. apply IH.
Qed.

Lemma running_max_member (l : list float) (w : float) :
  running_max l w = w \/ running_max l w ∈ l.
Proof.
  revert w. induction l as [|d l IH]; intros w; [now left|].
  unfold running_max. cbn [fold_left]. fold (running_max l (if d >? w then d else w)).
  destruct (IH (if d >? w then d else w)) as [-> | Hin]; [|right; now right].
  destruct (d >? w); [right; left | now left].
Qed.

Lemma running_min_member (l : list float) (w : float) :
  running_min l w = w \/ running_min l w ∈ l.
Proof.
  revert w. induction l as [|d l IH]; intros w; [now left|].
  unfold running_min. cbn [fold_left]. fold (running_min l (if d <? w then d else w)).
  destruct (IH (if d <? w then d else w)) as [-> | Hin]; [|right; now right].
  destruct (d <? w); [right; left | now left].
Qed.

Lemma ltb_true_not_nan_l (a b : float) : (a <? b) = true -> (a === a) = true.
Proof.
  rewrite FloatAxioms.ltb_spec, eqb_refl_iff. intros Hlt. now apply SFltb_not_nan in Hlt.
Qed.

Lemma running_min_spec_start (l : list float) (w : float) :
  (w === w) = true -> (running_min l w <=? w) = true.
Proof.
  revert w. induction l as [|d l IH]; intros w Hw; [now apply leb_refl|].
  unfold running_min. cbn [fold_left]. fold (running_min l (if d <? w then d else w)).
  destruct (d <? w) eqn:Hlt.
  - eapply leb_trans; [|apply ltb_leb; exact Hlt].
    apply IH. now apply (ltb_true_not_nan_l d w).
  - now apply IH.
Qed.

Lemma running_min_le (l : list float) (w d : float) :
  (w === w) = true -> d ∈ l -> (d === d) = true ->
  (running_min l w <=? d) = true.
Proof.
  revert w. induction l as [|d' l IH]; intros w Hw Hin Hd; [inversion Hin|].
  unfold running_min. cbn [fold_left]. fold (running_min l (if d' <? w then d' else w)).
  assert (Hw' : ((if d' <? w then d' else w) === (if d' <? w then d' else w)) = true).
  { destruct (d' <? w) eqn:Hlt; [now apply (ltb_true_not_nan_l d' w) | assumption]. }
  apply elem_of_cons in Hin as [-> | Hin]; [|now apply IH].
  eapply leb_trans; [apply (running_min_spec_start l _ Hw')|].
  destruct (d' <? w) eqn:Hlt; [now apply leb_refl | now apply leb_total].
Qed.

Lemma leb_infinity (d : float) : (Infinity <=? d) = true -> d = Infinity.
Proof.
  rewrite leb_spec. intros Hle. apply Prim2SF_inj.
  change (Prim2SF Infinity) with (S754_infinity false) in *.
  destruct (Prim2SF d) as [s| [|] | |s m e]; try discriminate. reflexivity.
Qed.

Lemma leb_neg_infinity (d : float) : (d <=? - Infinity) = true -> d = - Infinity.
Proof.
  rewrite leb_spec. intros Hle. apply Prim2SF_inj.
  change (Prim2SF (- Infinity)) with (S754_infinity true) in *.
  destruct (Prim2SF d) as [s| [|] | |s m e]; try discriminate. reflexivity.
Qed.

(** X14. The interval [project] returns bounds every projection of the
    vertices on the axis that is not NaN, from below and from above, and
    as soon as one projection is not NaN both ends of the interval are
    projections of vertices. *)
Theorem project_interval (normal : Point.t) (vertices : list Point.t) (d : float) :
  d ∈ projections normal vertices -> (d === d) = true ->
  (fst (Polygon.project normal vertices) <=? d) = true /\
  (d <=? snd (Polygon.project normal vertices)) = true /\
  fst (Polygon.project normal vertices) ∈ projections normal vertices /\
  snd (Polygon.project normal vertices) ∈ projections normal vertices.
Proof.
  intros Hin Hd. rewrite project_axes. cbn [fst snd].
  assert (Hmin := running_min_le _ Infinity d eq_refl Hin Hd).
  assert (Hmax := running_max_ge _ (- Infinity) d eq_refl Hin Hd).
  split; [exact Hmin|]. split; [exact Hmax|]. split.
  - destruct (running_min_member (projections normal vertices) Infinity) as [Heq | Hmem];
      [|exact Hmem].
    rewrite Heq in Hmin |- *. now rewrite <- (leb_infinity d Hmin).
  - destruct (running_max_member (projections normal vertices) (- Infinity)) as [Heq | Hmem];
      [|exact Hmem].
    rewrite Heq in Hmax |- *. now rewrite <- (leb_neg_infinity d Hmax).
Qed.

Lemma project_interval_witness :
  (fst (Polygon.project (Point.mk 1 0) (points plain_square)) <=? 1) = true /\
  (1 <=? snd (Polygon.project (Point.mk 1 0) (points plain_square))) = true /\
  fst (Polygon.project (Point.mk 1 0) (points plain_square))
    ∈ projections (Point.mk 1 0) (points plain_square) /\
  snd (Polygon.project (Point.mk 1 0) (points plain_square))
    ∈ projections (Point.mk 1 0) (points plain_square).
Proof.
  apply (project_interval (Point.mk 1 0) (points plain_square) 1).
  - vm_compute. repeat constructor.
  - reflexivity.
Defined.

(** ** When [update] throws *)

Lemma update_loop_throws (x y radius cos sin : float) (n start : nat) (this : Polygon.t) :
  for_state n start (Polygon.update_body x y radius cos sin) this = Throw_TypeError <->
  (length (Polygon._points this) < start + n)%nat /\ (0 < n)%nat.
Proof.
  revert start this. induction n as [|n IH]; intros start this.
  - cbn. split; [discriminate | lia].
  - cbn [for_state]. unfold Polygon.update_body at 1.
    destruct (Polygon._points this !! start) as [point|] eqn:Hpoint.
    + apply lookup_lt_Some in Hpoint. cbn [bind]. rewrite IH. cbn. lia.
    + apply lookup_ge_None in Hpoint. cbn. split; [lia | reflexivity].
Qed.

(** X15. [update] throws a [TypeError] exactly when the pose it is given
    differs from the stored one and the entity records more vertices in
    [numPoints] than its shape [_points] holds; in every other state it
    completes. *)
Theorem update_throws `{MathHost} (this : Polygon.t) (x y radius rotation : float) :
  Polygon.update this x y radius rotation = Throw_TypeError <->
  pose_unchanged this x y radius rotation = false /\
  (length (Polygon._points this) < Polygon.numPoints this)%nat.
Proof.
  unfold Polygon.update. fold (pose_unchanged this x y radius rotation).
  destruct (pose_unchanged this x y radius rotation).
  - split; [discriminate | intros [Hguard _]; discriminate].
  - match goal with
    | |- bind (for_state ?n 0%nat ?body ?s) _ = _ <-> _ =>
        assert (Hloop := update_loop_throws x y radius (Math_cos rotation)
                           (Math_sin rotation) n 0 s);
        destruct (for_state n 0%nat body s) as [this'|]
    end; cbn [bind Polygon._points Polygon.numPoints] in *.
    + split; [discriminate|]. intros [_ Hlen].
      assert (Hthrow : @Normal Polygon.t this' = Throw_TypeError) by (apply Hloop; lia).
      discriminate.
    + split; [|reflexivity]. intros _. split; [reflexivity|].
      destruct Hloop as [Hloop _]. specialize (Hloop eq_refl). lia.
Qed.
